(** * OHPOS backend: request admission and payment facade

    A shallow embedding of [server.js] (the key-protected, rate-limited
    revision, the last one in the file) and the properties its
    specification states about it.

    - JavaScript strings are [string]s of Latin-1 code units; only the
      string methods the server calls are modelled, each under its
      JavaScript name.
    - Values that arrive as JSON, or that the processor returns, are
      [JsValue]s; where JavaScript throws on such a value (a missing body
      that is destructured, a value that has no string form) the handler's
      [catch] answers, and the model says so.
    - A handler is a [Prog]: a tree whose nodes are the awaited calls to the
      payment processor, so that "no processor call is made" is a property of
      the tree.
    - The in-memory rate-limit counters are a [gmap] threaded through
      [app], which runs the middleware in the order of the [app.use] calls,
      [cors()] first. *)

From Stdlib Require Import ZArith String Ascii List DecimalString Lia.
From stdpp Require Import gmap strings list.

Open Scope string_scope.

Set Warnings "-register-all".

(** ** JavaScript string methods *)

Module Js.

(** ASCII code points: the server only inspects ASCII characters. *)
Definition code (c : ascii) : nat := nat_of_ascii c.

Definition isUpper (c : ascii) : bool := (65 <=? code c)%nat && (code c <=? 90)%nat.

Definition lowerChar (c : ascii) : ascii :=
  if isUpper c then ascii_of_nat (code c + 32) else c.

Definition upperChar (c : ascii) : ascii :=
  if (97 <=? code c)%nat && (code c <=? 122)%nat then ascii_of_nat (code c - 32) else c.

(** [String.prototype.toLowerCase] *)
Fixpoint toLowerCase (s : string) : string :=
  match s with
  | EmptyString => EmptyString
  | String c s' => String (lowerChar c) (toLowerCase s')
  end.

(** [String.prototype.toUpperCase] *)
Fixpoint toUpperCase (s : string) : string :=
  match s with
  | EmptyString => EmptyString
  | String c s' => String (upperChar c) (toUpperCase s')
  end.

(** [s.startsWith(p)] *)
Definition startsWith (s p : string) : bool := String.prefix p s.

(** Position of the first occurrence of [sub] in [s]. *)
Fixpoint firstIndex (s sub : string) : option nat :=
  if String.prefix sub s then Some 0
  else match s with
       | EmptyString => None
       | String _ s' => option_map S (firstIndex s' sub)
       end.

(** Position of the last occurrence of [sub] in [s]. *)
Fixpoint lastIndex (s sub : string) : option nat :=
  match s with
  | EmptyString => if String.prefix sub s then Some 0 else None
  | String _ s' =>
      match lastIndex s' sub with
      | Some n => Some (S n)
      | None => if String.prefix sub s then Some 0 else None
      end
  end.

Definition position (o : option nat) : Z :=
  match o with Some n => Z.of_nat n | None => (-1)%Z end.

(** [s.indexOf(sub)] and [s.lastIndexOf(sub)]: -1 when [sub] does not occur. *)
Definition indexOf (s sub : string) : Z := position (firstIndex s sub).
Definition lastIndexOf (s sub : string) : Z := position (lastIndex s sub).

(** [s.includes(sub)] *)
Definition includes (s sub : string) : bool :=
  match firstIndex s sub with Some _ => true | None => false end.

(** An index argument of [slice]: negative counts from the end, and the
    result is clamped to the string. *)
Definition clampIndex (len i : Z) : Z :=
  if (i <? 0)%Z then Z.max (len + i) 0 else Z.min i len.

(** [s.slice(start, end)] *)
Definition slice (s : string) (start end_ : Z) : string :=
  let len := Z.of_nat (String.length s) in
  let from := clampIndex len start in
  let to := clampIndex len end_ in
  substring (Z.to_nat from) (Z.to_nat (to - from)) s.

(** [s.slice(start)] *)
Definition sliceFrom (s : string) (start : Z) : string :=
  slice s start (Z.of_nat (String.length s)).

(** White space as [trim] and the regular expression class [\s] see it, among
    Latin-1 code units: TAB, LF, VT, FF, CR, SPACE and NBSP. *)
Definition isSpace (c : ascii) : bool :=
  ((9 <=? code c)%nat && (code c <=? 13)%nat) || (code c =? 32)%nat || (code c =? 160)%nat.

Fixpoint trimStart (s : string) : string :=
  match s with
  | EmptyString => EmptyString
  | String c s' => if isSpace c then trimStart s' else s
  end.

Fixpoint trimEnd (s : string) : string :=
  match s with
  | EmptyString => EmptyString
  | String c s' =>
      match trimEnd s' with
      | EmptyString => if isSpace c then EmptyString else String c EmptyString
      | r => String c r
      end
  end.

(** [s.trim()] *)
Definition trim (s : string) : string := trimEnd (trimStart s).

(** [s.split(",")[0]]: the text before the first comma. *)
Fixpoint firstField (s : string) : string :=
  match s with
  | EmptyString => EmptyString
  | String c s' => if Ascii.eqb c ","%char then EmptyString else String c (firstField s')
  end.

Definition isDigit (c : ascii) : bool := (48 <=? code c)%nat && (code c <=? 57)%nat.

Fixpoint allDigits (s : string) : bool :=
  match s with
  | EmptyString => true
  | String c s' => isDigit c && allDigits s'
  end.

(** [/^\d+$/.test(s)] *)
Definition isDigits (s : string) : bool :=
  match s with EmptyString => false | _ => allDigits s end.

(** [s.split(/[\n,\s,]+/)]: the fields between runs of commas and white
    space.  [acc] is the field being read, [afterSep] tells that the previous
    character was a separator. *)
Definition isKeySeparator (c : ascii) : bool := isSpace c || Ascii.eqb c ","%char.

Fixpoint splitFields (s acc : string) (afterSep : bool) : list string :=
  match s with
  | EmptyString => [acc]
  | String c s' =>
      if isKeySeparator c
      then (if afterSep then splitFields s' EmptyString true
            else acc :: splitFields s' EmptyString true)
      else splitFields s' (acc +:+ String c EmptyString) false
  end.

Definition splitKeys (s : string) : list string := splitFields s EmptyString false.

(** Truthiness of a string: [Boolean(s)]. *)
Definition nonEmpty (s : string) : bool :=
  match s with EmptyString => false | _ => true end.

End Js.

(** ** Numbers as text *)

(** An integer in decimal digits. *)
Definition decimal (n : Z) : string := NilZero.string_of_int (Z.to_int n).

(** The double nearest to a positive integer: the integer itself below
    2^53, beyond that the nearest multiple of the spacing, a tie going to
    the even mantissa. *)
Definition nearestDouble (a : Z) : Z :=
  if (a <? 2 ^ 53)%Z then a
  else
    let e := (Z.log2 a - 52)%Z in
    let q := Z.shiftr a e in
    let r := (a - Z.shiftl q e)%Z in
    let half := Z.shiftl 1 (e - 1) in
    if ((half <? r)%Z || ((r =? half)%Z && Z.odd q))%bool
    then Z.shiftl (q + 1) e else Z.shiftl q e.

(** The integer [c] is read as the double [x] (at least 2^53): it lies
    within half a spacing of [x], the ends included when the mantissa of [x]
    is even. *)
Definition readsAs (x c : Z) : bool :=
  let e := (Z.log2 x - 52)%Z in
  let m := Z.shiftr x e in
  let above := (2 ^ e)%Z in
  let below := if (m =? 2 ^ 52)%Z then (2 ^ (e - 1))%Z else above in
  if (c <=? x)%Z
  then ((2 * (x - c) <? below)%Z || (Z.even m && (2 * (x - c) =? below)%Z))%bool
  else ((2 * (c - x) <? above)%Z || (Z.even m && (2 * (c - x) =? above)%Z))%bool.

(** The integer of fewest significant digits that is read as [x], the
    nearest to [x] among those; [p] is the number of low digits that may be
    zero. *)
Fixpoint shortest (x : Z) (p : nat) : Z :=
  match p with
  | O => x
  | S p' =>
      let unit := (10 ^ Z.of_nat p)%Z in
      let lo := (x / unit * unit)%Z in
      let hi := (lo + unit)%Z in
      match readsAs x lo, readsAs x hi with
      | true, true =>
          if (x - lo <? hi - x)%Z then lo
          else if (hi - x <? x - lo)%Z then hi
          else if Z.even (x / unit) then lo else hi
      | true, false => lo
      | false, true => hi
      | false, false => shortest x p'
      end
  end.

Fixpoint dropZeros (s : string) : string :=
  match s with
  | EmptyString => EmptyString
  | String c s' =>
      match dropZeros s' with
      | EmptyString => if Ascii.eqb c "0"%char then EmptyString else String c EmptyString
      | rest => String c rest
      end
  end.

(** The exponent form of an integer of more than 21 digits. *)
Definition exponential (c : Z) : string :=
  let digits := decimal c in
  let exponent := decimal (Z.of_nat (String.length digits) - 1) in
  match dropZeros digits with
  | String d EmptyString => String d ("e+" +:+ exponent)
  | String d more => String d ("." +:+ more +:+ "e+" +:+ exponent)
  | EmptyString => digits
  end.

Definition unsignedToString (a : Z) : string :=
  if (a <? 2 ^ 53)%Z then decimal a
  else
    let x := nearestDouble a in
    if (2 ^ 1024 <=? x)%Z then "Infinity"
    else
      let c := shortest x (String.length (decimal x) - 1) in
      if (c <? 10 ^ 21)%Z then decimal c else exponential c.

(** [String(x)] for the Number [x] that the integer literal [n] is read
    as: the shortest digits that are read back as [x], in plain decimal
    below 10^21 and in exponent form from there on. *)
Definition numberToString (n : Z) : string :=
  if (n <? 0)%Z then "-" +:+ unsignedToString (- n) else unsignedToString n.

(** ** JavaScript values *)

(** The values the server handles: parsed JSON bodies, the objects the
    processor resolves with, and the parameters sent to it.  [JNum n] is the
    Number an integer literal [n] is read as: [n] itself up to 2^53 in
    magnitude, the nearest double beyond (amounts are minor currency
    units; numbers with a fractional part are not among these values);
    [JObj] lists the own members of a plain object. *)
Inductive JsValue : Type :=
| JUndefined
| JNull
| JBool (b : bool)
| JNum (n : Z)
| JStr (s : string)
| JArr (items : list JsValue)
| JObj (members : list (string * JsValue)).

(** [Boolean(v)], the test behind [!v], [v || d] and [c ? a : b]. *)
Definition truthy (v : JsValue) : bool :=
  match v with
  | JUndefined | JNull => false
  | JBool b => b
  | JNum n => negb (n =? 0)%Z
  | JStr s => Js.nonEmpty s
  | JArr _ | JObj _ => true
  end.

(** [a || b] *)
Definition orElse (a b : JsValue) : JsValue := if truthy a then a else b.

(** [v == null]: [undefined] or [null]. *)
Definition nullish (v : JsValue) : bool :=
  match v with JUndefined | JNull => true | _ => false end.

(** [a ?? b] *)
Definition coalesce (a b : JsValue) : JsValue := if nullish a then b else a.

(** [String(v)], also what [v.toString()] and a template literal produce
    for the values above when they produce a text ([unprintable] below tells
    when they throw instead): an array joins its elements with commas (an
    [undefined] or [null] element prints as nothing), a plain object prints
    as [[object Object]]. *)
Fixpoint toString (v : JsValue) : string :=
  match v with
  | JUndefined => "undefined"
  | JNull => "null"
  | JBool true => "true"
  | JBool false => "false"
  | JNum n => numberToString n
  | JStr s => s
  | JArr items =>
      (fix join (l : list JsValue) : string :=
         match l with
         | [] => ""
         | x :: r =>
             let elem := if nullish x then "" else toString x in
             match r with
             | [] => elem
             | _ => elem +:+ "," +:+ join r
             end
         end) items
  | JObj _ => "[object Object]"
  end.

Fixpoint member (ms : list (string * JsValue)) (k : string) : JsValue :=
  match ms with
  | [] => JUndefined
  | (k', v) :: r => if String.eqb k' k then v else member r k
  end.

(** [v.k] on a value that is not [undefined] or [null], and [v?.k] on any
    value: a member of an object, [undefined] otherwise. *)
Definition prop (v : JsValue) (k : string) : JsValue :=
  match v with
  | JObj ms => member ms k
  | _ => JUndefined
  end.

(** [a === b] for a string literal [b]. *)
Definition isString (a : JsValue) (b : string) : bool :=
  match a with JStr s => String.eqb s b | _ => false end.

(** A value of [process.env] or of a request header: a string or
    [undefined]. *)
Definition ofOption (o : option string) : JsValue :=
  match o with Some s => JStr s | None => JUndefined end.

(** [o || d] on such a value. *)
Definition orDefault (o : option string) (d : string) : string :=
  match o with
  | Some s => if Js.nonEmpty s then s else d
  | None => d
  end.

(** [!!o] on such a value. *)
Definition isSet (o : option string) : bool :=
  match o with Some s => Js.nonEmpty s | None => false end.

(** ** Configuration *)

(** The variables of [process.env] the server reads. *)
Record Env : Type := {
  STRIPE_ENV : option string;
  STRIPE_SECRET_KEY_PROD : option string;
  STRIPE_SECRET_KEY_TEST : option string;
  STRIPE_LOCATION_ID_PROD : option string;
  STRIPE_LOCATION_ID_TEST : option string;
  STRIPE_TERMINAL_ID_PROD : option string;
  STRIPE_SIMULATE_CARD : option string;
  STRIPE_SIMULATE_CARD_NUMBER : option string;
  POS_BACKEND_KEY : option string;
  POS_BACKEND_KEYS : option string;
  RATE_LIMIT_PER_MINUTE : option string
}.

Definition ENV (e : Env) : string := orDefault (STRIPE_ENV e) "test".

Definition isProd (e : Env) : bool := String.eqb (ENV e) "prod".

Definition STRIPE_SECRET_KEY (e : Env) : option string :=
  if isProd e then STRIPE_SECRET_KEY_PROD e else STRIPE_SECRET_KEY_TEST e.

(** The process exits at start-up unless the secret key of the mode is set. *)
Definition starts (e : Env) : bool := isSet (STRIPE_SECRET_KEY e).

Definition STRIPE_LOCATION_ID (e : Env) : option string :=
  if isProd e then STRIPE_LOCATION_ID_PROD e else STRIPE_LOCATION_ID_TEST e.

(** [null] outside production mode; [None] stands for both [undefined] and
    [null]. *)
Definition STRIPE_TERMINAL_ID (e : Env) : option string :=
  if isProd e then STRIPE_TERMINAL_ID_PROD e else None.

Definition SINGLE_API_KEY (e : Env) : string :=
  Js.trim (orDefault (POS_BACKEND_KEY e) "").

Definition MULTI_KEYS_RAW (e : Env) : string := orDefault (POS_BACKEND_KEYS e) "".

Definition MULTI_KEYS (e : Env) : gset string :=
  list_to_set (filter (fun s => Js.nonEmpty s = true) (map Js.trim (Js.splitKeys (MULTI_KEYS_RAW e)))).

(** [MULTI_KEYS.size === 0] *)
Definition noMultiKeys (e : Env) : bool := bool_decide (MULTI_KEYS e = ∅).

(** ** Requests and responses *)

(** A request as Express hands it to the middleware: [headers] is keyed by
    lower-case header name, [path] holds the segments of the URL path, [body]
    is what [express.json()] left in [req.body], [ip] is [req.ip] and
    [remoteAddress] is [req.socket.remoteAddress]. *)
Record Request : Type := {
  method : string;
  path : list string;
  headers : gmap string string;
  body : JsValue;
  ip : option string;
  remoteAddress : option string
}.

(** [req.header(name)]: the lookup ignores the case of [name]. *)
Definition header (req : Request) (name : string) : option string :=
  headers req !! Js.toLowerCase name.

(** [res.status(status).json(body)] *)
Record Response : Type := {
  status : Z;
  json : JsValue
}.

Definition errorResponse (code : Z) (message : JsValue) : Response :=
  {| status := code; json := JObj [("error", message)] |}.

(** What a middleware does with a request: hand it on, or answer it. *)
Inductive Outcome : Type :=
| Next
| Respond (r : Response).

(** ** Client IP extractor *)

Section ClientIp.

(** [isIP] of [node:net]: 0 for a string that is not an IP address, 4 or 6
    for one that is. *)
Variable isIP : string -> nat.

(** The cleaning of the [X-Forwarded-For] token: brackets, port, mapped
    prefix. *)
Definition cleanToken (token : string) : string :=
  let token :=
    if Js.startsWith token "[" && Js.includes token "]"
    then Js.slice token 1 (Js.indexOf token "]") else token in
  let lastColon := Js.lastIndexOf token ":" in
  let token :=
    if negb (lastColon =? -1)%Z && Js.isDigits (Js.sliceFrom token (lastColon + 1))
    then Js.slice token 0 lastColon else token in
  if Js.startsWith token "::ffff:" then Js.sliceFrom token 7 else token.

(** The cleaning of the socket address, as the fallback branch writes it. *)
Definition cleanRemote (ra : string) : string :=
  let ra :=
    if Js.startsWith ra "["
    then (let end_ := Js.indexOf ra "]" in
          if negb (end_ =? -1)%Z then Js.slice ra 1 end_ else ra)
    else ra in
  let lc := Js.lastIndexOf ra ":" in
  let ra :=
    if negb (lc =? -1)%Z && Js.isDigits (Js.sliceFrom ra (lc + 1))
    then Js.slice ra 0 lc else ra in
  if Js.startsWith ra "::ffff:" then Js.sliceFrom ra 7 else ra.

(** The first token of [X-Forwarded-For] (or of [req.ip]), cleaned. *)
Definition forwardedToken (req : Request) : string :=
  let header :=
    match headers req !! "x-forwarded-for" with
    | Some h => if Js.nonEmpty h then h else orDefault (ip req) ""
    | None => orDefault (ip req) ""
    end in
  let token := Js.trim (Js.firstField header) in
  cleanToken token.

(** The socket address, cleaned. *)
Definition socketAddress (req : Request) : string :=
  cleanRemote (orDefault (remoteAddress req) "").

Definition getClientIp (req : Request) : string :=
  let token := forwardedToken req in
  if (isIP token =? 0)%nat
  then
    let ra := socketAddress req in
    if negb (isIP ra =? 0)%nat then ra
    else if Js.nonEmpty token then token else "unknown"
  else if Js.nonEmpty token then token else "unknown".

End ClientIp.

(** ** API key verification *)

Definition hasValidKey (e : Env) (value : option string) : bool :=
  match value with
  | None => false
  | Some value =>
      if negb (Js.nonEmpty value) then false
      else if Js.nonEmpty (SINGLE_API_KEY e) && String.eqb value (SINGLE_API_KEY e) then true
      else if negb (noMultiKeys e) && bool_decide (value ∈ MULTI_KEYS e) then true
      else false
  end.

(** [req.header("x-api-key") || req.header("x-device-key")] *)
Definition presented (req : Request) : option string :=
  match header req "x-api-key" with
  | Some k => if Js.nonEmpty k then Some k else header req "x-device-key"
  | None => header req "x-device-key"
  end.

Definition authMiddleware (e : Env) (req : Request) : Outcome :=
  if negb (Js.nonEmpty (SINGLE_API_KEY e)) && noMultiKeys e
  then Respond (errorResponse 500
         (JStr "Server not configured: missing POS_BACKEND_KEY or POS_BACKEND_KEYS"))
  else if negb (hasValidKey e (presented req))
  then Respond (errorResponse 401 (JStr "Unauthorized"))
  else Next.

(** ** Rate limiting *)

(** The value of a run of decimal digits read after [acc]. *)
Fixpoint digitsValue (s : string) (acc : Z) : Z :=
  match s with
  | EmptyString => acc
  | String c s' => digitsValue s' (10 * acc + Z.of_nat (Js.code c - 48))%Z
  end.

(** A number as [Number(s)] yields it: not a number, an infinity, or the
    rational [num / den]; the sign of a zero is not kept. *)
Inductive JsNumber : Type :=
| NaN
| Infinite (negative : bool)
| Finite (num : Z) (den : positive).

Definition negate (x : JsNumber) : JsNumber :=
  match x with
  | NaN => NaN
  | Infinite negative => Infinite (negb negative)
  | Finite num den => Finite (- num) den
  end.

(** The longest run of decimal digits a text opens with, and what follows. *)
Fixpoint spanDigits (s : string) : string * string :=
  match s with
  | EmptyString => (EmptyString, EmptyString)
  | String c s' =>
      if Js.isDigit c
      then (let '(digits, rest) := spanDigits s' in (String c digits, rest))
      else (EmptyString, s)
  end.

(** The value of a digit in a base up to 16, if it is one. *)
Definition digitIn (base : Z) (c : ascii) : option Z :=
  let n := Z.of_nat (Js.code c) in
  let v := if (48 <=? n)%Z && (n <=? 57)%Z then (n - 48)%Z
           else if (97 <=? n)%Z && (n <=? 102)%Z then (n - 87)%Z
           else if (65 <=? n)%Z && (n <=? 70)%Z then (n - 55)%Z
           else 16%Z in
  if (v <? base)%Z then Some v else None.

Fixpoint radixValue (base : Z) (s : string) (acc : Z) : option Z :=
  match s with
  | EmptyString => Some acc
  | String c s' =>
      match digitIn base c with
      | Some v => radixValue base s' (base * acc + v)%Z
      | None => None
      end
  end.

(** A binary, octal or hexadecimal integer: [0b], [0o] or [0x] (in either
    case) and at least one digit. *)
Definition nonDecimalLiteral (t : string) : option Z :=
  match t with
  | String z (String p digits) =>
      if Ascii.eqb z "0"%char && Js.nonEmpty digits
      then
        if Ascii.eqb p "x"%char || Ascii.eqb p "X"%char then radixValue 16 digits 0
        else if Ascii.eqb p "o"%char || Ascii.eqb p "O"%char then radixValue 8 digits 0
        else if Ascii.eqb p "b"%char || Ascii.eqb p "B"%char then radixValue 2 digits 0
        else None
      else None
  | _ => None
  end.

(** An exponent part, [e] or [E], an optional sign and digits; the empty
    text is the exponent 0. *)
Definition exponentPart (r : string) : option Z :=
  match r with
  | EmptyString => Some 0%Z
  | String c r' =>
      if Ascii.eqb c "e"%char || Ascii.eqb c "E"%char
      then
        match r' with
        | EmptyString => None
        | String sign digits =>
            if Ascii.eqb sign "-"%char
            then (if Js.isDigits digits then Some (- digitsValue digits 0)%Z else None)
            else if Ascii.eqb sign "+"%char
            then (if Js.isDigits digits then Some (digitsValue digits 0) else None)
            else if Js.isDigits r' then Some (digitsValue r' 0) else None
        end
      else None
  end.

(** [m] times ten to the power [k]. *)
Definition scale (m k : Z) : JsNumber :=
  if (0 <=? k)%Z then Finite (m * 10 ^ k)%Z 1
  else Finite m (Z.to_pos (10 ^ (- k))).

(** An unsigned decimal literal: [Infinity], or digits with an optional
    fraction and an optional exponent, with a digit before or after the
    point. *)
Definition unsignedDecimal (t : string) : JsNumber :=
  if String.eqb t "Infinity" then Infinite false
  else
    let '(int, afterInt) := spanDigits t in
    let '(frac, afterFrac) :=
      match afterInt with
      | String c r => if Ascii.eqb c "."%char then spanDigits r else (EmptyString, afterInt)
      | EmptyString => (EmptyString, EmptyString)
      end in
    if Js.nonEmpty int || Js.nonEmpty frac
    then
      match exponentPart afterFrac with
      | Some ex => scale (digitsValue (int +:+ frac) 0) (ex - Z.of_nat (String.length frac))
      | None => NaN
      end
    else NaN.

(** The value a numeric text denotes: surrounding white space is ignored,
    the empty text is 0, a sign may precede a decimal literal, every other
    text is not a number. *)
Definition literalValue (s : string) : JsNumber :=
  match Js.trim s with
  | EmptyString => Finite 0 1
  | String c r as t =>
      match nonDecimalLiteral t with
      | Some v => Finite v 1
      | None =>
          if Ascii.eqb c "-"%char then negate (unsignedDecimal r)
          else if Ascii.eqb c "+"%char then unsignedDecimal r
          else unsignedDecimal t
      end
  end.

(** The double nearest to the rational [num/den], in lowest terms: the
    53-bit mantissa at the exponent of the value (not below that of the
    subnormal numbers), a tie going to the even mantissa; what is beyond
    the largest double is infinite. *)
Definition roundToDouble (num : Z) (den : positive) : JsNumber :=
  if (num =? 0)%Z then Finite 0 1
  else
    let a := Z.abs num in
    let d := Z.pos den in
    let mantissa (e : Z) : Z :=
      if (0 <=? e)%Z then (a / (d * 2 ^ e))%Z else (a * 2 ^ (- e) / d)%Z in
    let e0 := (Z.log2 a - Z.log2 d - 52)%Z in
    let e := Z.max (if (mantissa e0 <? 2 ^ 52)%Z then e0 - 1 else e0)%Z (-1074) in
    let q := mantissa e in
    let divisor := if (0 <=? e)%Z then (d * 2 ^ e)%Z else d in
    let remainder :=
      if (0 <=? e)%Z then (a - q * divisor)%Z else (a * 2 ^ (- e) - q * divisor)%Z in
    let q' :=
      if (divisor <? 2 * remainder)%Z || ((2 * remainder =? divisor)%Z && Z.odd q)
      then (q + 1)%Z else q in
    let sign := if (num <? 0)%Z then (-1)%Z else 1%Z in
    if (0 <=? e)%Z
    then (if (2 ^ 1024 <=? q' * 2 ^ e)%Z then Infinite (num <? 0)%Z
          else Finite (sign * q' * 2 ^ e) 1)
    else
      let g := Z.gcd q' (2 ^ (- e)) in
      Finite (sign * (q' / g)) (Z.to_pos (2 ^ (- e) / g)).

(** [Number(s)] for a string: the double nearest to what the text
    denotes. *)
Definition Number_ (s : string) : JsNumber :=
  match literalValue s with
  | Finite num den => roundToDouble num den
  | other => other
  end.

(** [Number(process.env.RATE_LIMIT_PER_MINUTE || 60)] *)
Definition limit (e : Env) : JsNumber :=
  match RATE_LIMIT_PER_MINUTE e with
  | Some s => if Js.nonEmpty s then Number_ s else Finite 60 1
  | None => Finite 60 1
  end.

(** [hits > limit], as JavaScript compares numbers: nothing is beyond what
    is not a number. *)
Definition beyond (hits : nat) (l : JsNumber) : bool :=
  match l with
  | NaN => false
  | Infinite negative => negative
  | Finite num den => (num <? Z.of_nat hits * Z.pos den)%Z
  end.

(** [windowMs: 60 * 1000] *)
Definition windowMs : Z := 60 * 1000.

(** The counter of one client: the requests counted in its current window,
    and the time (in milliseconds) at which that window ends. *)
Record Hits : Type := {
  totalHits : nat;
  resetTime : Z
}.

(** Modelled from the spec: the counter store of the limiter that
    [rateLimit] builds (the express-rate-limit package is not among the
    sources).  The store maps a client identity to its request count within
    the current window of [windowMs]; a request that finds no window open
    for its client opens one, and every request is counted. *)
Definition increment (store : gmap string Hits) (key : string) (now : Z)
  : Hits * gmap string Hits :=
  let opened := {| totalHits := 0; resetTime := now + windowMs |} in
  let current :=
    match store !! key with
    | Some h => if (now <? resetTime h)%Z then h else opened
    | None => opened
    end in
  let h := {| totalHits := S (totalHits current); resetTime := resetTime current |} in
  (h, <[key := h]> store).

(** The answer to a request beyond the limit; the spec fixes its status
    only. *)
Definition tooManyRequests : Response := {| status := 429; json := JUndefined |}.

Section Limiter.

Variable isIP : string -> nat.

(** Modelled from the spec: the middleware [limiter], keyed by
    [getClientIp] as [keyGenerator] says.  A request whose count within the
    window is beyond [limit] is answered 429 and not handed on. *)
Definition limiter (e : Env) (store : gmap string Hits) (now : Z) (req : Request)
  : Outcome * gmap string Hits :=
  let '(h, store') := increment store (getClientIp isIP req) now in
  if beyond (totalHits h) (limit e) then (Respond tooManyRequests, store')
  else (Next, store').

End Limiter.

(** ** Idempotency header and device key *)

(** The middleware that requires [Idempotency-Key] on POST requests. *)
Definition requireIdempotencyKey (req : Request) : Outcome :=
  if String.eqb (Js.toUpperCase (method req)) "POST"
  then (if negb (isSet (header req "Idempotency-Key"))
        then Respond (errorResponse 400 (JStr "Missing Idempotency-Key header"))
        else Next)
  else Next.

(** [req.deviceKey], as the last middleware sets it. *)
Definition deviceKey (req : Request) : JsValue :=
  match presented req with
  | Some k => if Js.nonEmpty k then JStr k else JNull
  | None => JNull
  end.

(** ** Calls to the payment processor *)

(** The methods of the Stripe client the handlers await. *)
Inductive StripeCall : Type :=
| paymentIntents_create (params : JsValue)
| paymentIntents_retrieve (id : string) (params : JsValue)
| terminal_connectionTokens_create
| terminal_readers_create (params : JsValue)
| terminal_readers_processPaymentIntent (reader : JsValue) (params options : JsValue)
| testHelpers_terminal_readers_presentPaymentMethod (reader : JsValue) (params : JsValue).

(** How an awaited call settles: with the processor's object, or with an
    error whose [message] is kept. *)
Inductive Settled : Type :=
| Resolved (value : JsValue)
| Rejected (message : JsValue).

(** A handler: it answers, or awaits a call and continues with how the call
    settled. *)
Inductive Prog (A : Type) : Type :=
| Ret (a : A)
| Await (c : StripeCall) (k : Settled -> Prog A).

Arguments Ret {A} a.
Arguments Await {A} c k.

(** Running a handler against a processor: the calls made, in order, and the
    answer.  The processor may answer by what it was asked before. *)
Fixpoint run {A : Type} (stripe : list StripeCall -> StripeCall -> Settled)
  (made : list StripeCall) (p : Prog A) : list StripeCall * A :=
  match p with
  | Ret a => (made, a)
  | Await c k => run stripe (made ++ [c]) (k (stripe made c))
  end.

Definition ok (body : JsValue) : Response := {| status := 200; json := body |}.

(** ** Route handlers *)

(** The statement-descriptor suffix of [POST /api/payments]. *)
Definition statementSuffix (category : JsValue) : string :=
  let rawSuffix := Js.toLowerCase (toString (orElse category (JStr "POS"))) in
  let suffix :=
    if Js.includes rawSuffix "concession" then "OHP CONCESSIONS"
    else if Js.includes rawSuffix "merch" then "OHP MERCH"
    else if Js.includes rawSuffix "art" then "OHP ART"
    else "OHP POS" in
  Js.slice suffix 0 22.

(** The [catch] of every handler. *)
Definition failed (message : JsValue) : Response := errorResponse 500 message.

(** The [TypeError]s a handler can run into with what a request carries or
    a call resolves with: a pattern that destructures [undefined] or [null]
    ([property] is the first name of the pattern), the reading of a member
    of [undefined] or [null], a call of [toString] on an object whose own
    member of that name is no function, and the conversion to a string of a
    value that has none. *)
Inductive Thrown : Type :=
| CannotDestructure (property : string)
| CannotRead (target : JsValue) (property : string)
| NotAFunction
| NotPrimitive.

Definition hasOwn (ms : list (string * JsValue)) (k : string) : bool :=
  existsb (fun m => String.eqb (fst m) k) ms.

(** [String(v)], [v.toString()] and a template literal throw on [v]: an
    object parsed from JSON with a member [toString] of its own (which is no
    function), or an array that holds such a value. *)
Fixpoint unprintable (v : JsValue) : bool :=
  match v with
  | JObj ms => hasOwn ms "toString"
  | JArr items =>
      (fix any (l : list JsValue) : bool :=
         match l with
         | [] => false
         | x :: r => unprintable x || any r
         end) items
  | _ => false
  end.

(** What [v.toString()] throws on an unprintable [v]. *)
Definition toStringError (v : JsValue) : Thrown :=
  match v with JObj _ => NotAFunction | _ => NotPrimitive end.

Section Handlers.

(** The message of each [TypeError], which is the engine's. *)
Variable typeError : Thrown -> string.

(** A thrown error, as the [catch] answers it. *)
Definition thrown (t : Thrown) : Response := failed (JStr (typeError t)).

(** [app.post("/api/payments")] *)
Definition createPaymentIntent (deviceKey body : JsValue) : Prog Response :=
  if nullish body then Ret (thrown (CannotDestructure "amount")) else
  let amount := prop body "amount" in
  let currency := prop body "currency" in
  let category := prop body "category" in
  let description := prop body "description" in
  let art_number := prop body "art_number" in
  if negb (truthy amount) || negb (truthy currency)
  then Ret (errorResponse 400 (JStr "Amount and currency are required."))
  else if negb (truthy description) && unprintable (coalesce category (JStr "Unspecified"))
  then Ret (thrown NotPrimitive)
  else if unprintable (orElse category (JStr "POS"))
  then Ret (thrown (toStringError (orElse category (JStr "POS"))))
  else if negb (nullish art_number) && unprintable art_number
  then Ret (thrown NotPrimitive)
  else
    let computedDescription :=
      orElse description
        (JStr ("OHP POS - " +:+ toString (coalesce category (JStr "Unspecified")))) in
    let suffix := statementSuffix category in
    Await
      (paymentIntents_create
         (JObj [("amount", amount);
                ("currency", currency);
                ("description", computedDescription);
                ("statement_descriptor_suffix", JStr suffix);
                ("payment_method_types", JArr [JStr "card_present"]);
                ("capture_method", JStr "automatic");
                ("metadata",
                 JObj ((if negb (nullish art_number)
                        then [("art_number", JStr (toString art_number))] else [])
                       ++ [("device_key", orElse deviceKey (JStr "unknown"))]))]))
      (fun settled =>
         match settled with
         | Resolved paymentIntent =>
             if nullish paymentIntent
             then Ret (thrown (CannotRead paymentIntent "id"))
             else Ret (ok (JObj [("id", prop paymentIntent "id");
                                 ("status", prop paymentIntent "status")]))
         | Rejected message => Ret (failed message)
         end).

(** [app.post("/api/terminal/connection_token")] *)
Definition createConnectionToken : Prog Response :=
  Await terminal_connectionTokens_create
    (fun settled =>
       match settled with
       | Resolved token =>
           if nullish token then Ret (thrown (CannotRead token "secret"))
           else Ret (ok (JObj [("secret", prop token "secret")]))
       | Rejected message => Ret (failed message)
       end).

(** The second half of [app.post("/api/terminal/charge")], once [readerId]
    is known. *)
Definition processOnReaderId (e : Env) (payment_intent_id readerId : JsValue)
  : Prog Response :=
  if unprintable payment_intent_id then Ret (thrown NotPrimitive) else
  Await
    (terminal_readers_processPaymentIntent readerId
       (JObj [("payment_intent", payment_intent_id)])
       (JObj [("idempotencyKey", JStr ("pi-process-" +:+ toString payment_intent_id))]))
    (fun settled =>
       match settled with
       | Resolved processed =>
           if negb (isProd e) && isString (ofOption (STRIPE_SIMULATE_CARD e)) "true"
           then
             let testCard := orDefault (STRIPE_SIMULATE_CARD_NUMBER e) "4242424242424242" in
             Await
               (testHelpers_terminal_readers_presentPaymentMethod readerId
                  (JObj [("type", JStr "card_present");
                         ("card_present", JObj [("number", JStr testCard)])]))
               (fun _ => Ret (ok (JObj [("reader", processed)])))
           else Ret (ok (JObj [("reader", processed)]))
       | Rejected message => Ret (failed message)
       end).

(** [app.post("/api/terminal/charge")]; the log line written after the
    registration prints the reader's [id] in a template literal. *)
Definition processOnReader (e : Env) (body : JsValue) : Prog Response :=
  if nullish body then Ret (thrown (CannotDestructure "payment_intent_id")) else
  let payment_intent_id := prop body "payment_intent_id" in
  if isProd e
  then
    if negb (isSet (STRIPE_TERMINAL_ID e))
    then Ret (errorResponse 400 (JStr "Missing STRIPE_TERMINAL_ID_PROD for production mode"))
    else processOnReaderId e payment_intent_id (ofOption (STRIPE_TERMINAL_ID e))
  else
    Await
      (terminal_readers_create
         (JObj [("registration_code", JStr "simulated-wpe");
                ("label", JStr "Simulated POS");
                ("location", ofOption (STRIPE_LOCATION_ID e))]))
      (fun settled =>
         match settled with
         | Resolved reader =>
             if nullish reader then Ret (thrown (CannotRead reader "id"))
             else if unprintable (prop reader "id") then Ret (thrown NotPrimitive)
             else processOnReaderId e payment_intent_id (prop reader "id")
         | Rejected message => Ret (failed message)
         end).

(** [v || null] *)
Definition orNull (v : JsValue) : JsValue := orElse v JNull.

(** [effectiveStatus] of [app.get("/api/payment_intents/:id")]; [lc] is
    [intent.latest_charge || null]. *)
Definition effectiveStatus (intent : JsValue) : JsValue :=
  let lc := orNull (prop intent "latest_charge") in
  if isString (prop intent "status") "succeeded" || isString (prop lc "status") "succeeded"
  then JStr "succeeded"
  else prop intent "status".

(** The body [app.get("/api/payment_intents/:id")] answers with. *)
Definition intentSummary (intent : JsValue) : JsValue :=
  let last_payment_error := prop intent "last_payment_error" in
  let lastErr :=
    if truthy last_payment_error
    then JObj [("code", orNull (prop last_payment_error "code"));
               ("decline_code", orNull (prop last_payment_error "decline_code"));
               ("message", orNull (prop last_payment_error "message"));
               ("type", orNull (prop last_payment_error "type"))]
    else JNull in
  let lc := orNull (prop intent "latest_charge") in
  let chargeFailureMessage := orNull (prop lc "failure_message") in
  let chargeFailureCode := orNull (prop lc "failure_code") in
  let outcome := orNull (prop lc "outcome") in
  let outcomeType := orNull (prop outcome "type") in
  let outcomeSellerMessage := orNull (prop outcome "seller_message") in
  JObj [("id", prop intent "id");
        ("status", prop intent "status");
        ("effective_status", effectiveStatus intent);
        ("last_payment_error", lastErr);
        ("latest_charge_status", coalesce (prop lc "status") JNull);
        ("latest_charge_failure_message", chargeFailureMessage);
        ("latest_charge_failure_code", chargeFailureCode);
        ("latest_charge_outcome_type", outcomeType);
        ("latest_charge_outcome_seller_message", outcomeSellerMessage)].

(** [app.get("/api/payment_intents/:id")] *)
Definition getPaymentIntent (id : string) : Prog Response :=
  Await
    (paymentIntents_retrieve id (JObj [("expand", JArr [JStr "latest_charge"])]))
    (fun settled =>
       match settled with
       | Resolved intent =>
           if nullish intent
           then Ret (thrown (CannotRead intent "last_payment_error"))
           else Ret (ok (intentSummary intent))
       | Rejected message => Ret (failed message)
       end).

(** [app.get("/health")] *)
Definition health (e : Env) : Response :=
  ok (JObj [("ok", JBool true);
            ("message", JStr ("Backend reachable (" +:+ ENV e +:+ ")"))]).

(** ** The application *)

(** Express compares path segments without regard to case. *)
Definition onPath (req : Request) (p : list string) : bool :=
  bool_decide (map Js.toLowerCase (path req) = p).

Definition isMethod (req : Request) (m : string) : bool := String.eqb (method req) m.

(** [app.use("/api", ...)] applies to the paths under [/api]. *)
Definition underApi (req : Request) : bool :=
  match path req with
  | seg :: _ => String.eqb (Js.toLowerCase seg) "api"
  | [] => false
  end.

(** The answer to a request no route matches. *)
Definition notFound : Response := {| status := 404; json := JUndefined |}.

(** [app.get] routes also serve HEAD requests. *)
Definition isGet (req : Request) : bool := isMethod req "GET" || isMethod req "HEAD".

(** The route table. *)
Definition routes (e : Env) (req : Request) : Prog Response :=
  if isMethod req "POST" && onPath req ["api"; "payments"]
  then createPaymentIntent (deviceKey req) (body req)
  else if isMethod req "POST" && onPath req ["api"; "terminal"; "connection_token"]
  then createConnectionToken
  else if isMethod req "POST" && onPath req ["api"; "terminal"; "charge"]
  then processOnReader e (body req)
  else
    match path req with
    | [a; b; id] =>
        if isGet req && onPath req ["api"; "payment_intents"; Js.toLowerCase id]
        then getPaymentIntent id
        else Ret notFound
    | _ =>
        if isGet req && onPath req ["health"]
        then Ret (health e)
        else Ret notFound
    end.

End Handlers.

(** A preflight: any OPTIONS request. *)
Definition isPreflight (req : Request) : bool :=
  String.eqb (Js.toUpperCase (method req)) "OPTIONS".

(** What a preflight is answered: 204 and no body. *)
Definition preflightAnswer : Response := {| status := 204; json := JUndefined |}.

(** The [cors()] middleware with its default options (the package is not
    among the sources): it ends every preflight itself and hands every other
    request on. *)
Definition cors (req : Request) : Outcome :=
  if isPreflight req then Respond preflightAnswer else Next.

Section App.

Variable typeError : Thrown -> string.
Variable isIP : string -> nat.

(** The middleware of the [/api] paths, in the order of the [app.use]
    calls: key check, rate limit, idempotency header.  [now] is the time of
    arrival in milliseconds. *)
Definition admission (e : Env) (store : gmap string Hits) (now : Z) (req : Request)
  : Outcome * gmap string Hits :=
  match authMiddleware e req with
  | Respond r => (Respond r, store)
  | Next =>
      let '(limited, store') := limiter isIP e store now req in
      match limited with
      | Respond r => (Respond r, store')
      | Next => (requireIdempotencyKey req, store')
      end
  end.

(** One request through the application: what is answered, after which
    calls, and the counters the request leaves behind.  [cors()] comes
    first; [express.json()] has left in [body req] what it parsed, which is
    [undefined] when it parsed nothing; the two middleware that only set a
    header and write the log hand the request on. *)
Definition app (e : Env) (store : gmap string Hits) (now : Z) (req : Request)
  : Prog Response * gmap string Hits :=
  match cors req with
  | Respond r => (Ret r, store)
  | Next =>
      if underApi req
      then
        match admission e store now req with
        | (Respond r, store') => (Ret r, store')
        | (Next, store') => (routes typeError e req, store')
        end
      else (routes typeError e req, store)
  end.

End App.

(** The calls a request causes at a given processor. *)
Definition callsMade (stripe : list StripeCall -> StripeCall -> Settled)
  (p : Prog Response) : list StripeCall := fst (run stripe [] p).

Definition answer (stripe : list StripeCall -> StripeCall -> Settled)
  (p : Prog Response) : Response := snd (run stripe [] p).

(** ** Notions the properties are stated with *)

(** [v] is one of the configured secrets: the single key when one is set,
    or a member of the key set. *)
Definition isSecret (e : Env) (v : string) : Prop :=
  (SINGLE_API_KEY e <> "" /\ v = SINGLE_API_KEY e) \/ v ∈ MULTI_KEYS e.

(** [s] contains [sub] (given in lower case) without regard to case: a
    stretch of [s] reads [sub] once lowered. *)
Definition containsCI (s sub : string) : Prop :=
  exists pre mid post, s = pre +:+ mid +:+ post /\ Js.toLowerCase mid = sub.

(** The suffix the category text calls for: the first of the category
    names, in this order, that the text contains, [OHP POS] when it contains
    none. *)
Inductive SuffixRule (text : string) : string -> Prop :=
| rule_concession :
    containsCI text "concession" -> SuffixRule text "OHP CONCESSIONS"
| rule_merch :
    ~ containsCI text "concession" -> containsCI text "merch" ->
    SuffixRule text "OHP MERCH"
| rule_art :
    ~ containsCI text "concession" -> ~ containsCI text "merch" ->
    containsCI text "art" -> SuffixRule text "OHP ART"
| rule_pos :
    ~ containsCI text "concession" -> ~ containsCI text "merch" ->
    ~ containsCI text "art" -> SuffixRule text "OHP POS".

(** [call] is a [paymentIntents.create] whose parameters carry [suffix]. *)
Definition createsWithSuffix (call : StripeCall) (suffix : string) : Prop :=
  exists params, call = paymentIntents_create params
                 /\ prop params "statement_descriptor_suffix" = JStr suffix.

(** The text in which [POST /api/payments] looks for the category names. *)
Definition categoryText (category : JsValue) : string :=
  toString (orElse category (JStr "POS")).

(** The two 400 answers of the handlers. *)
Definition amountAndCurrencyRequired : Response :=
  errorResponse 400 (JStr "Amount and currency are required.").




(** A request causes no call, whatever the processor would answer. *)
Definition noCall (p : Prog Response) : Prop :=
  forall stripe, callsMade stripe p = [].









(** An address in dotted-quad form, as [isIP] accepts it: four decimal
    fields from 0 to 255 without leading zeros. *)
Definition isQuadField (s : string) : bool :=
  Js.isDigits s && (String.length s <=? 3)%nat && (digitsValue s 0 <=? 255)%Z
  && ((String.length s =? 1)%nat || negb (Js.startsWith s "0")).

Fixpoint dotFields (s acc : string) : list string :=
  match s with
  | EmptyString => [acc]
  | String c s' =>
      if Ascii.eqb c "."%char then acc :: dotFields s' EmptyString
      else dotFields s' (acc +:+ String c EmptyString)
  end.

Definition isIPv4 (s : string) : bool :=
  let fs := dotFields s EmptyString in
  (length fs =? 4)%nat && forallb isQuadField fs.

(** An [isIP] that knows the IPv4 addresses only, to evaluate the
    application on concrete requests. *)
Definition isIPv4Only (s : string) : nat := if isIPv4 s then 4 else 0.

(** The messages of one engine, to evaluate the handlers on concrete
    requests. *)
Definition v8Messages (t : Thrown) : string :=
  match t with
  | CannotDestructure property =>
      "Cannot destructure property '" +:+ property +:+ "' of 'req.body' as it is undefined."
  | CannotRead target property =>
      "Cannot read properties of " +:+ toString target +:+ " (reading '" +:+ property +:+ "')"
  | NotAFunction => "category.toString is not a function"
  | NotPrimitive => "Cannot convert object to primitive value"
  end.

(** Sample configurations and requests. *)
Definition noEnv : Env :=
  {| STRIPE_ENV := None; STRIPE_SECRET_KEY_PROD := None;
     STRIPE_SECRET_KEY_TEST := Some "sk_test_1";
     STRIPE_LOCATION_ID_PROD := None; STRIPE_LOCATION_ID_TEST := None;
     STRIPE_TERMINAL_ID_PROD := None; STRIPE_SIMULATE_CARD := None;
     STRIPE_SIMULATE_CARD_NUMBER := None; POS_BACKEND_KEY := None;
     POS_BACKEND_KEYS := None; RATE_LIMIT_PER_MINUTE := None |}.

Definition keyedEnv : Env :=
  {| STRIPE_ENV := None; STRIPE_SECRET_KEY_PROD := None;
     STRIPE_SECRET_KEY_TEST := Some "sk_test_1";
     STRIPE_LOCATION_ID_PROD := None; STRIPE_LOCATION_ID_TEST := None;
     STRIPE_TERMINAL_ID_PROD := None; STRIPE_SIMULATE_CARD := None;
     STRIPE_SIMULATE_CARD_NUMBER := None; POS_BACKEND_KEY := Some "front-desk";
     POS_BACKEND_KEYS := Some "bar-1, bar-2"; RATE_LIMIT_PER_MINUTE := Some "2" |}.

(** Three keys, each gap written differently. *)
Definition mixedKeysEnv : Env :=
  {| STRIPE_ENV := None; STRIPE_SECRET_KEY_PROD := None;
     STRIPE_SECRET_KEY_TEST := Some "sk_test_1";
     STRIPE_LOCATION_ID_PROD := None; STRIPE_LOCATION_ID_TEST := None;
     STRIPE_TERMINAL_ID_PROD := None; STRIPE_SIMULATE_CARD := None;
     STRIPE_SIMULATE_CARD_NUMBER := None; POS_BACKEND_KEY := None;
     POS_BACKEND_KEYS := Some " a, b,c ,"; RATE_LIMIT_PER_MINUTE := None |}.


Definition request (m : string) (p : list string) (hs : list (string * string))
  (b : JsValue) : Request :=
  {| method := m; path := p; headers := list_to_map hs; body := b;
     ip := Some "203.0.113.7"; remoteAddress := Some "203.0.113.7" |}.
(** A well-formed payment request under the key [front-desk]. *)
Definition payment : Request :=
  request "POST" ["api"; "payments"]
    [("x-api-key", "front-desk"); ("idempotency-key", "a1")]
    (JObj [("amount", JNum 500); ("currency", JStr "usd")]).

(** The same under a key that is not configured. *)
Definition paymentGuessedKey : Request :=
  request "POST" ["api"; "payments"]
    [("x-api-key", "guess"); ("idempotency-key", "a1")]
    (JObj [("amount", JNum 500); ("currency", JStr "usd")]).



(** A payment request without any header. *)
Definition paymentNoHeaders : Request :=
  request "POST" ["api"; "payments"] []
    (JObj [("amount", JNum 500); ("currency", JStr "usd")]).

(** A payment request under a configured key, without [Idempotency-Key]. *)
Definition paymentNoIdempotencyKey : Request :=
  request "POST" ["api"; "payments"] [("x-device-key", "bar-2")]
    (JObj [("amount", JNum 500); ("currency", JStr "usd")]).


Definition paymentZeroAmount : Request :=
  request "POST" ["api"; "payments"]
    [("x-api-key", "front-desk"); ("idempotency-key", "a3")]
    (JObj [("amount", JNum 0); ("currency", JStr "usd")]).



(** A charge on the reader. *)
Definition charge : Request :=
  request "POST" ["api"; "terminal"; "charge"]
    [("x-api-key", "front-desk"); ("idempotency-key", "a4")]
    (JObj [("payment_intent_id", JStr "pi_1")]).

(** Requests that carry nothing to tell the client by, the first with a
    forwarding header that names no address. *)
Definition behindPipe : Request :=
  {| method := "GET"; path := ["api"; "payment_intents"; "pi_1"];
     headers := list_to_map [("x-forwarded-for", "garbage"); ("x-api-key", "front-desk")];
     body := JUndefined; ip := None; remoteAddress := None |}.

Definition anonymous : Request :=
  {| method := "GET"; path := ["api"; "payment_intents"; "pi_1"];
     headers := list_to_map [("x-api-key", "front-desk")];
     body := JUndefined; ip := None; remoteAddress := None |}.

(** ** Notions of the further properties *)

(** Every character of [s] satisfies [p]. *)
Fixpoint allChars (p : ascii -> bool) (s : string) : bool :=
  match s with
  | EmptyString => true
  | String c s' => p c && allChars p s'
  end.

(** A text that can stand as one key in [POS_BACKEND_KEYS]: not empty, free
    of commas and white space. *)
Definition keyLike (k : string) : bool :=
  Js.nonEmpty k && allChars (fun c => negb (Js.isKeySeparator c)) k.

(** A run of commas and white space between two keys. *)
Definition separatorRun (sep : string) : bool :=
  Js.nonEmpty sep && allChars Js.isKeySeparator sep.

(** What a registration resolved with can be used as a reader: it has
    members, and its [id] can be written into the log line. *)
Definition registers (registered : JsValue) : bool :=
  negb (nullish registered) && negb (unprintable (prop registered "id")).

(** Commas and white space only, possibly none. *)
Definition separators (s : string) : bool := allChars Js.isKeySeparator s.

(** A list of keys as a text: commas and white space may come first, then
    the first key, then every further key after a run of commas and white
    space of its own, and commas and white space may come last. *)
Fixpoint keysAfter (more : list (string * string)) (trail : string) : string :=
  match more with
  | [] => trail
  | (sep, k) :: rest => sep +:+ k +:+ keysAfter rest trail
  end.

Definition keysText (lead first : string) (more : list (string * string))
  (trail : string) : string :=
  lead +:+ first +:+ keysAfter more trail.

(** Every further key is one, and the run before it is not empty. *)
Definition wellSeparated (more : list (string * string)) : Prop :=
  Forall (fun g => separatorRun (fst g) = true /\ keyLike (snd g) = true) more.


(** A processor that is down: every call is rejected with [message]. *)
Definition rejecting (message : JsValue) : list StripeCall -> StripeCall -> Settled :=
  fun _ _ => Rejected message.

(** A processor that settles its calls, in order, as [outcomes] says, and
    rejects any further call. *)
Definition scripted (outcomes : list Settled) : list StripeCall -> StripeCall -> Settled :=
  fun made _ => nth (length made) outcomes (Rejected JNull).

(** The idempotency key [POST /api/terminal/charge] derives for an intent. *)
Definition processKey (payment_intent_id : JsValue) : string :=
  "pi-process-" +:+ toString payment_intent_id.

(** The member [device_key] of the [metadata] sent with a call. *)
Definition deviceKeySent (call : StripeCall) : JsValue :=
  match call with
  | paymentIntents_create params => prop (prop params "metadata") "device_key"
  | _ => JUndefined
  end.

(** The reader a call addresses, and the idempotency key it carries. *)
Definition readerAddressed (call : StripeCall) : option JsValue :=
  match call with
  | terminal_readers_processPaymentIntent reader _ _ => Some reader
  | testHelpers_terminal_readers_presentPaymentMethod reader _ => Some reader
  | _ => None
  end.

Definition idempotencyKeySent (call : StripeCall) : JsValue :=
  match call with
  | terminal_readers_processPaymentIntent _ _ options => prop options "idempotencyKey"
  | _ => JUndefined
  end.

Definition isReaderCreation (call : StripeCall) : bool :=
  match call with terminal_readers_create _ => true | _ => false end.

Definition isCardPresentation (call : StripeCall) : bool :=
  match call with
  | testHelpers_terminal_readers_presentPaymentMethod _ _ => true
  | _ => false
  end.

(** The last cleaning step of [getClientIp] alone: the IPv4-mapped prefix. *)
Definition stripMapped (token : string) : string :=
  if Js.startsWith token "::ffff:" then Js.sliceFrom token 7 else token.

(** The members of the summary that are filled with [|| null] or
    [?? null]. *)
Definition nullableMembers : list string :=
  ["last_payment_error"; "latest_charge_status"; "latest_charge_failure_message";
   "latest_charge_failure_code"; "latest_charge_outcome_type";
   "latest_charge_outcome_seller_message"].


Definition readerEnv : Env :=
  {| STRIPE_ENV := Some "prod"; STRIPE_SECRET_KEY_PROD := Some "sk_live_1";
     STRIPE_SECRET_KEY_TEST := None;
     STRIPE_LOCATION_ID_PROD := Some "tml_1"; STRIPE_LOCATION_ID_TEST := None;
     STRIPE_TERMINAL_ID_PROD := Some "tmr_1"; STRIPE_SIMULATE_CARD := Some "true";
     STRIPE_SIMULATE_CARD_NUMBER := None; POS_BACKEND_KEY := Some "front-desk";
     POS_BACKEND_KEYS := None; RATE_LIMIT_PER_MINUTE := None |}.

Definition simulatingEnv : Env :=
  {| STRIPE_ENV := Some "staging"; STRIPE_SECRET_KEY_PROD := None;
     STRIPE_SECRET_KEY_TEST := Some "sk_test_1";
     STRIPE_LOCATION_ID_PROD := None; STRIPE_LOCATION_ID_TEST := Some "tml_t";
     STRIPE_TERMINAL_ID_PROD := Some "tmr_1"; STRIPE_SIMULATE_CARD := Some "true";
     STRIPE_SIMULATE_CARD_NUMBER := None; POS_BACKEND_KEY := Some "front-desk";
     POS_BACKEND_KEYS := None; RATE_LIMIT_PER_MINUTE := None |}.

(** A payment under a wrong [x-api-key] and a configured [x-device-key]. *)
Definition paymentTwoKeys : Request :=
  request "POST" ["api"; "payments"]
    [("x-api-key", "guess"); ("x-device-key", "bar-1"); ("idempotency-key", "a5")]
    (JObj [("amount", JNum 500); ("currency", JStr "usd")]).

Definition healthCheck : Request :=
  request "GET" ["health"] [] JUndefined.

Example toLowerCase_ex : Js.toLowerCase "Art Merch-09" = "art merch-09".
Proof. reflexivity. Qed.
Example slice_ex : Js.slice "[::1]:80" 1 (Js.indexOf "[::1]:80" "]") = "::1".
Proof. reflexivity. Qed.
Example lastIndexOf_ex : Js.lastIndexOf "203.0.113.7:54321" ":" = 11%Z.
Proof. reflexivity. Qed.
Example trim_ex : Js.trim (Js.firstField "  203.0.113.7:54321 , 10.0.0.1") = "203.0.113.7:54321".
Proof. reflexivity. Qed.
Example splitKeys_ex : Js.splitKeys ",a, b
c," = [""; "a"; "b"; "c"; ""].
Proof. reflexivity. Qed.
Example isDigits_ex : Js.isDigits "54321" = true /\ Js.isDigits "" = false /\ Js.isDigits "5a" = false.
Proof. repeat split; reflexivity. Qed.
Example getClientIp_port : 
  getClientIp isIPv4Only
    (request "GET" ["api"] [("x-forwarded-for", "203.0.113.7:54321, 10.0.0.1")] JUndefined)
  = "203.0.113.7".
Proof. vm_compute. reflexivity. Qed.
Example getClientIp_mapped : 
  getClientIp isIPv4Only
    (request "GET" ["api"] [("x-forwarded-for", "::ffff:203.0.113.7")] JUndefined)
  = "203.0.113.7".
Proof. vm_compute. reflexivity. Qed.
Example getClientIp_fallback : 
  getClientIp isIPv4Only
    (request "GET" ["api"] [("x-forwarded-for", "not an address")] JUndefined)
  = "203.0.113.7".
Proof. vm_compute. reflexivity. Qed.
Example MULTI_KEYS_ex : MULTI_KEYS keyedEnv = {[ "bar-1"; "bar-2" ]}.
Proof. vm_compute. reflexivity. Qed.
Example limit_ex : limit keyedEnv = Finite 2 1 /\ limit noEnv = Finite 60 1.
Proof. split; reflexivity. Qed.
Example numberToString_ex :
  map numberToString [500; -5; 2 ^ 60; 10 ^ 21; 2 ^ 70]%Z
  = ["500"; "-5"; "1152921504606847000"; "1e+21"; "1.1805916207174113e+21"].
Proof. vm_compute. reflexivity. Qed.

Example Number_ex :
  Number_ " 12 " = Finite 12 1 /\ Number_ "0x2" = Finite 2 1
  /\ Number_ "1e2" = Finite 100 1 /\ Number_ "2.0" = Finite 2 1
  /\ Number_ "1.5" = Finite 3 2 /\ Number_ "-.5e-1" = Finite (-3602879701896397) (2 ^ 56)
  /\ Number_ "1.99999999999999999999" = Finite 2 1 /\ Number_ "1e400" = Infinite false
  /\ Number_ "-Infinity" = Infinite true /\ Number_ "12px" = NaN
  /\ Number_ "." = NaN /\ Number_ "0x" = NaN /\ Number_ "1e" = NaN.
Proof. repeat split; vm_compute; reflexivity. Qed.
Example beyond_ex :
  beyond 2 (Number_ "1.5") = true /\ beyond 1 (Number_ "1.5") = false
  /\ beyond 100 (Number_ "sixty") = false.
Proof. repeat split; reflexivity. Qed.

(** * Properties *)

(** ** Strings *)

#[local] Arguments String.append !s1 s2 : simpl nomatch.

Lemma append_assoc (a b c : string) : (a +:+ b) +:+ c = a +:+ (b +:+ c).
Proof. induction a as [|x a IH]; simpl; [reflexivity | now rewrite IH]. Qed.

Lemma prefix_iff (p s : string) :
  String.prefix p s = true <-> exists post, s = p +:+ post.
Proof.
  revert s. induction p as [|c p IH]; intros s; simpl.
  - split; [intros _; now exists s | intros _; now destruct s].
  - destruct s as [|d s]; simpl.
    + split; [discriminate | intros [post H]; discriminate].
    + destruct (ascii_dec c d) as [->|Hne].
      * rewrite IH. split; intros [post H]; exists post.
        -- now rewrite H.
        -- now injection H.
      * split; [discriminate | intros [post H]; injection H; congruence].
Qed.

Lemma firstIndex_includes (s sub : string) :
  Js.includes s sub = true <-> exists pre post, s = pre +:+ sub +:+ post.
Proof.
  unfold Js.includes. induction s as [|c s IH].
  - cbn [Js.firstIndex]. destruct (String.prefix sub "") eqn:Hp.
    + split; [intros _ | reflexivity].
      apply prefix_iff in Hp as [post Hp]. now exists "", post.
    + split; [discriminate |]. intros (pre & post & H).
      destruct pre; [| discriminate]. simpl in H.
      assert (String.prefix sub "" = true) by (apply prefix_iff; eauto).
      congruence.
  - cbn [Js.firstIndex]. destruct (String.prefix sub (String c s)) eqn:Hp.
    + split; [intros _ | reflexivity].
      apply prefix_iff in Hp as [post Hp]. now exists "", post.
    + destruct (Js.firstIndex s sub) eqn:Hf; simpl.
      * split; [intros _ | reflexivity].
        destruct IH as [IH _]. destruct (IH eq_refl) as (pre & post & ->).
        now exists (String c pre), post.
      * split; [discriminate |]. intros (pre & post & H).
        destruct pre as [|d pre]; simpl in H.
        -- assert (String.prefix sub (String c s) = true) by (apply prefix_iff; eauto).
           congruence.
        -- injection H as _ ->. destruct IH as [_ IH].
           discriminate IH. now exists pre, post.
Qed.

Lemma toLowerCase_app (a b : string) :
  Js.toLowerCase (a +:+ b) = Js.toLowerCase a +:+ Js.toLowerCase b.
Proof. induction a as [|c a IH]; simpl; [reflexivity | now rewrite IH]. Qed.

Lemma toLowerCase_split (s x y : string) :
  Js.toLowerCase s = x +:+ y ->
  exists a b, s = a +:+ b /\ Js.toLowerCase a = x /\ Js.toLowerCase b = y.
Proof.
  revert s. induction x as [|c x IH]; intros s H; simpl in H.
  - now exists "", s.
  - destruct s as [|d s]; [discriminate |]. simpl in H. injection H as Hc Hs.
    destruct (IH _ Hs) as (a & b & -> & Ha & Hb).
    exists (String d a), b. simpl. now rewrite Hc, Ha, Hb.
Qed.

(** The case-blind search is the search in the lowered text. *)
Lemma containsCI_includes (s sub : string) :
  containsCI s sub <-> Js.includes (Js.toLowerCase s) sub = true.
Proof.
  rewrite firstIndex_includes. split.
  - intros (pre & mid & post & -> & <-).
    exists (Js.toLowerCase pre), (Js.toLowerCase post).
    now rewrite !toLowerCase_app.
  - intros (pre & post & H).
    apply toLowerCase_split in H as (a & bc & -> & Ha & H).
    apply toLowerCase_split in H as (b & c & -> & Hb & Hc).
    now exists a, b, c.
Qed.

(** X18.  The cleaning that [getClientIp] writes out a second time for the
    socket address is the cleaning of the forwarding token: the two
    sequences of statements compute the same function of the text. *)
Lemma cleanRemote_cleanToken (s : string) : cleanRemote s = cleanToken s.
Proof.
  unfold cleanRemote, cleanToken. cbv zeta.
  assert (H : (if Js.startsWith s "["
               then (if negb (Js.indexOf s "]" =? -1)%Z
                     then Js.slice s 1 (Js.indexOf s "]") else s)
               else s)
              = (if Js.startsWith s "[" && Js.includes s "]"
                 then Js.slice s 1 (Js.indexOf s "]") else s)).
  { destruct (Js.startsWith s "["); simpl; [| reflexivity].
    unfold Js.indexOf, Js.includes.
    destruct (Js.firstIndex s "]") as [n|]; simpl; [| reflexivity].
    destruct (Z.eqb_spec (Z.of_nat n) (-1)); [lia | reflexivity]. }
  now rewrite H.
Qed.

(** ** Handlers as trees of calls *)

Lemma run_Ret {A : Type} stripe made (a : A) : run stripe made (Ret a) = (made, a).
Proof. reflexivity. Qed.

Lemma noCall_Ret (r : Response) : noCall (Ret r).
Proof. intros stripe. reflexivity. Qed.

Lemma noCall_inv (p : Prog Response) : noCall p -> exists r, p = Ret r.
Proof.
  destruct p as [r | c k]; [now exists r |].
  intros H. specialize (H (fun _ _ => Rejected JNull)).
  unfold callsMade in H. simpl in H.
  assert (Hgrow : forall (q : Prog Response) made,
             length made <= length (fst (run (fun _ _ => Rejected JNull) made q))).
  { induction q as [a | c' k' IH]; intros made; simpl; [lia |].
    etransitivity; [| apply IH]. rewrite length_app. simpl. lia. }
  specialize (Hgrow (k (Rejected JNull)) [c]). rewrite H in Hgrow. simpl in Hgrow. lia.
Qed.

(** ** Key check *)

Lemma nonEmpty_true (s : string) : Js.nonEmpty s = true <-> s <> "".
Proof. destruct s; simpl; split; congruence. Qed.

Lemma MULTI_KEYS_nonEmpty (e : Env) (v : string) :
  v ∈ MULTI_KEYS e -> Js.nonEmpty v = true.
Proof.
  unfold MULTI_KEYS. rewrite elem_of_list_to_set, list_elem_of_filter. tauto.
Qed.

(** [hasValidKey] accepts exactly the configured secrets. *)
Lemma hasValidKey_isSecret (e : Env) (v : string) :
  hasValidKey e (Some v) = true <-> isSecret e v.
Proof.
  unfold isSecret. split.
  - unfold hasValidKey, noMultiKeys.
    destruct (Js.nonEmpty v) eqn:Hv; simpl; [| discriminate].
    destruct (Js.nonEmpty (SINGLE_API_KEY e)) eqn:Hs; simpl.
    + destruct (String.eqb_spec v (SINGLE_API_KEY e)) as [->|Hne].
      * intros _. left. split; [now apply nonEmpty_true | reflexivity].
      * destruct (negb _ && bool_decide (v ∈ _)) eqn:Hb; [| discriminate].
        intros _. right. apply andb_true_iff in Hb as [_ Hb].
        now apply bool_decide_eq_true in Hb.
    + destruct (negb _ && bool_decide (v ∈ _)) eqn:Hb; [| discriminate].
      intros _. right. apply andb_true_iff in Hb as [_ Hb].
      now apply bool_decide_eq_true in Hb.
  - intros [[Hs ->] | Hin]; unfold hasValidKey.
    + apply nonEmpty_true in Hs. rewrite Hs. simpl.
      now rewrite String.eqb_refl.
    + rewrite (MULTI_KEYS_nonEmpty _ _ Hin). simpl.
      destruct (Js.nonEmpty (SINGLE_API_KEY e) && String.eqb v (SINGLE_API_KEY e));
        [reflexivity |].
      unfold noMultiKeys. rewrite bool_decide_eq_false_2, bool_decide_eq_true_2; [reflexivity | assumption |].
      intros Hm. rewrite Hm in Hin. now apply not_elem_of_empty in Hin.
Qed.

Lemma authMiddleware_unconfigured (e : Env) (req : Request) :
  SINGLE_API_KEY e = "" -> MULTI_KEYS e = ∅ ->
  authMiddleware e req
  = Respond (errorResponse 500
      (JStr "Server not configured: missing POS_BACKEND_KEY or POS_BACKEND_KEYS")).
Proof.
  intros Hs Hm. unfold authMiddleware, noMultiKeys. rewrite Hs.
  now rewrite bool_decide_eq_true_2.
Qed.

Lemma authMiddleware_configured (e : Env) (req : Request) :
  SINGLE_API_KEY e <> "" \/ MULTI_KEYS e <> ∅ ->
  authMiddleware e req
  = if hasValidKey e (presented req) then Next
    else Respond (errorResponse 401 (JStr "Unauthorized")).
Proof.
  intros H. unfold authMiddleware, noMultiKeys.
  assert (Hc : negb (Js.nonEmpty (SINGLE_API_KEY e)) && bool_decide (MULTI_KEYS e = ∅) = false).
  { destruct H as [H | H].
    - apply nonEmpty_true in H. now rewrite H.
    - rewrite (bool_decide_eq_false_2 _ H). apply andb_false_r. }
  rewrite Hc. now destruct (hasValidKey e (presented req)).
Qed.

(** A preflight is answered by [cors()], before anything else. *)
Lemma app_preflight typeError isIP (e : Env) store now (req : Request) :
  isPreflight req = true ->
  app typeError isIP e store now req = (Ret preflightAnswer, store).
Proof. intros Hp. unfold app, cors. now rewrite Hp. Qed.

(** A request the key check answers goes no further: no counter moves and
    no handler runs. *)
Lemma app_auth_answers typeError isIP (e : Env) store now (req : Request) (r : Response) :
  isPreflight req = false ->
  underApi req = true -> authMiddleware e req = Respond r ->
  app typeError isIP e store now req = (Ret r, store).
Proof.
  intros Hp Hu Ha. unfold app, cors, admission. now rewrite Hp, Hu, Ha.
Qed.







(** ** Statement-descriptor suffix *)

Lemma statementSuffix_cases (category : JsValue) :
  statementSuffix category
  = let raw := Js.toLowerCase (categoryText category) in
    if Js.includes raw "concession" then "OHP CONCESSIONS"
    else if Js.includes raw "merch" then "OHP MERCH"
    else if Js.includes raw "art" then "OHP ART"
    else "OHP POS".
Proof.
  unfold statementSuffix, categoryText. cbv zeta.
  repeat match goal with |- context [if ?b then _ else _] =>
    match b with Js.includes _ _ => destruct b end end;
    reflexivity.
Qed.

(** C3, as amended.  The statement-descriptor suffix of a payment follows
    the first category name that the category text contains without regard
    to case, trying "concession", then "merch", then "art": [OHP
    CONCESSIONS], [OHP MERCH] or [OHP ART]; a text with none of them, and a
    missing category, give [OHP POS].  The suffix is at most 22 characters
    long, and it is the one sent with the [paymentIntents.create] call. *)
Theorem statement_suffix_first_match (category : JsValue) :
  SuffixRule (categoryText category) (statementSuffix category)
  /\ String.length (statementSuffix category) <= 22
  /\ statementSuffix JUndefined = "OHP POS"
  /\ (forall typeError deviceKey body,
        match createPaymentIntent typeError deviceKey body with
        | Ret _ => True
        | Await call _ => createsWithSuffix call (statementSuffix (prop body "category"))
        end).
Proof.
  split; [| split; [| split]].
  - rewrite statementSuffix_cases. cbv zeta.
    destruct (Js.includes _ "concession") eqn:Hc.
    { apply rule_concession. now apply containsCI_includes. }
    assert (~ containsCI (categoryText category) "concession")
      by (rewrite containsCI_includes; congruence).
    destruct (Js.includes _ "merch") eqn:Hm.
    { apply rule_merch; [assumption |]. now apply containsCI_includes. }
    assert (~ containsCI (categoryText category) "merch")
      by (rewrite containsCI_includes; congruence).
    destruct (Js.includes _ "art") eqn:Ha.
    { apply rule_art; [assumption .. |]. now apply containsCI_includes. }
    apply rule_pos; try assumption. rewrite containsCI_includes. congruence.
  - rewrite statementSuffix_cases. cbv zeta.
    repeat match goal with |- context [if ?b then _ else _] => destruct b end;
      simpl; lia.
  - reflexivity.
  - intros typeError deviceKey body. unfold createPaymentIntent.
    destruct (nullish body); [exact I |].
    destruct (negb _ || negb _); [exact I |].
    destruct (negb _ && unprintable _); [exact I |].
    destruct (unprintable _); [exact I |].
    destruct (negb _ && unprintable _); [exact I |].
    eexists. split; reflexivity.
Qed.

(** C3 as stated fails on a category that names two of the categories: one
    that contains "art" may yield another suffix than [OHP ART]. *)
Lemma statement_suffix_art_merch :
  containsCI (categoryText (JStr "Art Merch")) "art"
  /\ statementSuffix (JStr "Art Merch") = "OHP MERCH"
  /\ statementSuffix (JStr "Art Merch") <> "OHP ART".
Proof.
  split; [| split].
  - now exists "", "Art", " Merch".
  - reflexivity.
  - discriminate.
Qed.

(** ** Effective status *)

Lemma isString_true (v : JsValue) (s : string) :
  isString v s = true <-> v = JStr s.
Proof.
  destruct v; simpl; try (split; [discriminate | congruence]).
  destruct (String.eqb_spec s0 s); split; congruence.
Qed.

(** [lc?.k] with [lc = v || null] reads member [k] of [v]. *)
Lemma prop_orNull (v : JsValue) (k : string) : prop (orNull v) k = prop v k.
Proof.
  unfold orNull, orElse. destruct (truthy v) eqn:Hv; [reflexivity |].
  destruct v; try reflexivity; discriminate.
Qed.

(** C4.  The [effective_status] that a retrieval reports is "succeeded"
    exactly when the status of the intent or the status of its latest charge
    is "succeeded", and is the status of the intent otherwise; an intent
    that is "processing" with a charge that "succeeded" is reported
    "succeeded". *)
Theorem effective_status_follows_charge (typeError : Thrown -> string)
  (id : string) (intent : JsValue) :
  let own := prop intent "status" in
  let charge := prop (prop intent "latest_charge") "status" in
  (effectiveStatus intent = JStr "succeeded"
   <-> own = JStr "succeeded" \/ charge = JStr "succeeded")
  /\ (own <> JStr "succeeded" -> charge <> JStr "succeeded" ->
      effectiveStatus intent = own)
  /\ prop (json (answer (fun _ _ => Resolved intent) (getPaymentIntent typeError id)))
        "effective_status" = effectiveStatus intent
  /\ effectiveStatus
       (JObj [("id", JStr id); ("status", JStr "processing");
              ("latest_charge", JObj [("status", JStr "succeeded")])])
     = JStr "succeeded".
Proof.
  intros own charge.
  assert (He : effectiveStatus intent
               = if isString own "succeeded" || isString charge "succeeded"
                 then JStr "succeeded" else own).
  { unfold effectiveStatus. cbv zeta. now rewrite prop_orNull. }
  split; [| split; [| split]].
  - rewrite He. destruct (isString own "succeeded") eqn:Ho; simpl.
    + apply isString_true in Ho. tauto.
    + destruct (isString charge "succeeded") eqn:Hc.
      * apply isString_true in Hc. tauto.
      * split; [| intros [H | H]; apply isString_true in H; congruence].
        intros H. left. exact H.
  - intros Ho Hc. rewrite He.
    destruct (isString own "succeeded") eqn:Ho'; [apply isString_true in Ho'; congruence |].
    destruct (isString charge "succeeded") eqn:Hc'; [apply isString_true in Hc'; congruence |].
    reflexivity.
  - clear He. subst own charge. now destruct intent.
  - reflexivity.
Qed.

(** ** Admission and routing *)

Lemma isMethod_eq (req : Request) (m : string) : isMethod req m = true <-> method req = m.
Proof. unfold isMethod. now destruct (String.eqb_spec (method req) m). Qed.

Lemma post_is_no_preflight (req : Request) : method req = "POST" -> isPreflight req = false.
Proof. intros H. unfold isPreflight. now rewrite H. Qed.

(** What the application answers is what a middleware answered, or what the
    route does. *)
Lemma app_admitted typeError isIP (e : Env) store now (req : Request) :
  isPreflight req = false ->
  fst (admission isIP e store now req) = Next ->
  fst (app typeError isIP e store now req) = routes typeError e req.
Proof.
  intros Hp. unfold app, cors. rewrite Hp. destruct (underApi req); [| reflexivity].
  destruct (admission isIP e store now req) as [[|r] store']; simpl;
    [reflexivity | discriminate].
Qed.

Lemma app_cases typeError isIP (e : Env) store now (req : Request) :
  (exists r, fst (app typeError isIP e store now req) = Ret r)
  \/ fst (app typeError isIP e store now req) = routes typeError e req.
Proof.
  unfold app, cors. destruct (isPreflight req); [simpl; eauto |].
  destruct (underApi req); [| now right].
  destruct (admission isIP e store now req) as [[|r] store']; simpl; eauto.
Qed.

Lemma app_noCall typeError isIP (e : Env) store now (req : Request) :
  noCall (routes typeError e req) -> noCall (fst (app typeError isIP e store now req)).
Proof.
  intros H. destruct (app_cases typeError isIP e store now req) as [[r ->] | ->];
    [apply noCall_Ret | assumption].
Qed.

Lemma routes_payments typeError (e : Env) (req : Request) :
  isMethod req "POST" = true -> onPath req ["api"; "payments"] = true ->
  routes typeError e req = createPaymentIntent typeError (deviceKey req) (body req).
Proof. intros Hm Hp. unfold routes. now rewrite Hm, Hp. Qed.


(** A request to one of the POST routes, as the application serves it when
    the handler answers at once. *)
Lemma app_answers_at_once typeError isIP (e : Env) store now (req : Request)
  (r : Response) :
  isMethod req "POST" = true ->
  routes typeError e req = Ret r ->
  noCall (fst (app typeError isIP e store now req))
  /\ (fst (admission isIP e store now req) = Next ->
      fst (app typeError isIP e store now req) = Ret r).
Proof.
  intros Hm Hr. split.
  - apply app_noCall. rewrite Hr. apply noCall_Ret.
  - intros Ha. apply isMethod_eq in Hm.
    now rewrite (app_admitted _ _ _ _ _ _ (post_is_no_preflight req Hm) Ha).
Qed.

(** ** Idempotency header *)

Lemma requireIdempotencyKey_missing (req : Request) :
  method req = "POST" -> header req "Idempotency-Key" = None ->
  requireIdempotencyKey req
  = Respond (errorResponse 400 (JStr "Missing Idempotency-Key header")).
Proof.
  intros Hm Hh. unfold requireIdempotencyKey. now rewrite Hm, Hh.
Qed.

(** C5, as amended.  A POST request to a path under [/api] that lacks the
    [Idempotency-Key] header never causes a processor call; once it has
    passed the key check and the rate limit it is answered 400 [Missing
    Idempotency-Key header].  The check is on presence only: a request that
    carries any non-empty value passes it, whatever was seen before. *)
Theorem idempotency_key_required (typeError : Thrown -> string) (isIP : string -> nat)
  (e : Env) (store : gmap string Hits) (now : Z) (req : Request) :
  underApi req = true ->
  method req = "POST" ->
  header req "Idempotency-Key" = None ->
  noCall (fst (app typeError isIP e store now req))
  /\ (authMiddleware e req = Next ->
      fst (limiter isIP e store now req) = Next ->
      fst (app typeError isIP e store now req)
      = Ret (errorResponse 400 (JStr "Missing Idempotency-Key header")))
  /\ (forall other : Request,
        isSet (header other "Idempotency-Key") = true ->
        requireIdempotencyKey other = Next).
Proof.
  intros Hu Hm Hh.
  pose proof (requireIdempotencyKey_missing req Hm Hh) as Hi.
  pose proof (post_is_no_preflight req Hm) as Hp.
  split; [| split].
  - unfold app, cors, admission. rewrite Hp, Hu.
    destruct (authMiddleware e req); [| apply noCall_Ret].
    destruct (limiter isIP e store now req) as [[|r] store']; [| apply noCall_Ret].
    rewrite Hi. apply noCall_Ret.
  - intros Ha Hl. unfold app, cors, admission. rewrite Hp, Hu, Ha.
    destruct (limiter isIP e store now req) as [o store']. simpl in Hl. subst o.
    now rewrite Hi.
  - intros other Hs. unfold requireIdempotencyKey. rewrite Hs.
    now destruct (String.eqb _ _).
Qed.

Lemma idempotency_key_required_witness :
  noCall (fst (app v8Messages isIPv4Only keyedEnv ∅ 0 paymentNoIdempotencyKey))
  /\ (authMiddleware keyedEnv paymentNoIdempotencyKey = Next ->
      fst (limiter isIPv4Only keyedEnv ∅ 0 paymentNoIdempotencyKey) = Next ->
      fst (app v8Messages isIPv4Only keyedEnv ∅ 0 paymentNoIdempotencyKey)
      = Ret (errorResponse 400 (JStr "Missing Idempotency-Key header")))
  /\ (forall other : Request,
        isSet (header other "Idempotency-Key") = true ->
        requireIdempotencyKey other = Next).
Proof.
  apply (idempotency_key_required v8Messages isIPv4Only keyedEnv ∅ 0
           paymentNoIdempotencyKey);
    reflexivity.
Defined.

(** C5 as stated fails on a request that also lacks a valid key: the key
    check comes first and answers 401. *)
Lemma idempotency_after_auth :
  underApi paymentNoHeaders = true
  /\ method paymentNoHeaders = "POST"
  /\ header paymentNoHeaders "Idempotency-Key" = None
  /\ fst (app v8Messages isIPv4Only keyedEnv ∅ 0 paymentNoHeaders)
     = Ret (errorResponse 401 (JStr "Unauthorized"))
  /\ fst (app v8Messages isIPv4Only keyedEnv ∅ 0 paymentNoHeaders)
     <> Ret (errorResponse 400 (JStr "Missing Idempotency-Key header")).
Proof.
  assert (Ha : fst (app v8Messages isIPv4Only keyedEnv ∅ 0 paymentNoHeaders)
               = Ret (errorResponse 401 (JStr "Unauthorized"))).
  { now rewrite (app_auth_answers v8Messages isIPv4Only keyedEnv ∅ 0 paymentNoHeaders
                   (errorResponse 401 (JStr "Unauthorized")) eq_refl eq_refl). }
  split; [reflexivity |]. split; [reflexivity |]. split; [reflexivity |].
  split; [assumption |]. rewrite Ha. discriminate.
Qed.

(** ** Required payment fields *)

(** A body that was not parsed cannot be destructured: the handler throws,
    and its [catch] answers 500. *)
Lemma createPaymentIntent_no_body typeError (deviceKey body : JsValue) :
  nullish body = true ->
  createPaymentIntent typeError deviceKey body
  = Ret (thrown typeError (CannotDestructure "amount")).
Proof. intros H. unfold createPaymentIntent. now rewrite H. Qed.

(** The check of [POST /api/payments] is on truthiness. *)
Lemma createPaymentIntent_falsy typeError (deviceKey body : JsValue) :
  nullish body = false ->
  truthy (prop body "amount") = false \/ truthy (prop body "currency") = false ->
  createPaymentIntent typeError deviceKey body = Ret amountAndCurrencyRequired.
Proof.
  intros Hb H. unfold createPaymentIntent. rewrite Hb.
  assert (Hc : negb (truthy (prop body "amount")) || negb (truthy (prop body "currency")) = true)
    by (destruct H as [-> | ->]; [reflexivity | apply orb_true_r]).
  now rewrite Hc.
Qed.

(** Past the check, the handler answers 500 or calls the processor. *)
Lemma createPaymentIntent_truthy typeError (deviceKey body : JsValue) :
  truthy (prop body "amount") = true -> truthy (prop body "currency") = true ->
  (exists t, createPaymentIntent typeError deviceKey body = Ret (thrown typeError t))
  \/ (exists params k,
        createPaymentIntent typeError deviceKey body
        = Await (paymentIntents_create params) k).
Proof.
  intros Ha Hc. unfold createPaymentIntent. rewrite Ha, Hc. simpl.
  destruct (nullish body); [eauto |].
  destruct (negb _ && unprintable _); [eauto |].
  destruct (unprintable _); [eauto |].
  destruct (negb _ && unprintable _); eauto.
Qed.

Lemma thrown_is_not_400 typeError (t : Thrown) (message : JsValue) :
  @Ret Response (thrown typeError t) <> Ret (errorResponse 400 message).
Proof. discriminate. Qed.

(** The handler answers 400 exactly on a body with a falsy field. *)
Lemma createPaymentIntent_400 typeError (deviceKey body : JsValue) :
  createPaymentIntent typeError deviceKey body = Ret amountAndCurrencyRequired
  <-> nullish body = false
      /\ (truthy (prop body "amount") = false \/ truthy (prop body "currency") = false).
Proof.
  split.
  - intros H. destruct (nullish body) eqn:Hb.
    + rewrite (createPaymentIntent_no_body _ _ _ Hb) in H.
      now apply thrown_is_not_400 in H.
    + split; [reflexivity |].
      destruct (truthy (prop body "amount")) eqn:Ea; [| now left].
      destruct (truthy (prop body "currency")) eqn:Ec; [| now right].
      destruct (createPaymentIntent_truthy typeError deviceKey body Ea Ec)
        as [[t Ht] | (params & k & Hk)]; rewrite H in *; [| discriminate].
      symmetry in Ht. now apply thrown_is_not_400 in Ht.
  - intros [Hb Hf]. now apply createPaymentIntent_falsy.
Qed.




(** C10.  The required-field check is on truthiness, not on presence: a
    payment request whose [amount] is present but 0, or whose [currency] is
    present but the empty string, is answered 400 and causes no processor
    call; and the handler gives that answer exactly when the request has a
    body in which one of the two fields is falsy. *)
Theorem payment_rejects_falsy_fields (typeError : Thrown -> string)
  (key sent : JsValue) :
  prop sent "amount" = JNum 0 \/ prop sent "currency" = JStr "" ->
  createPaymentIntent typeError key sent = Ret amountAndCurrencyRequired
  /\ noCall (createPaymentIntent typeError key sent)
  /\ (forall isIP e store now req,
        isMethod req "POST" = true -> onPath req ["api"; "payments"] = true ->
        body req = sent ->
        noCall (fst (app typeError isIP e store now req))
        /\ (fst (admission isIP e store now req) = Next ->
            fst (app typeError isIP e store now req) = Ret amountAndCurrencyRequired))
  /\ (forall key' sent',
        createPaymentIntent typeError key' sent' = Ret amountAndCurrencyRequired
        <-> nullish sent' = false
            /\ (truthy (prop sent' "amount") = false
                \/ truthy (prop sent' "currency") = false)).
Proof.
  intros H.
  assert (Hb : nullish sent = false)
    by (destruct sent; try reflexivity; destruct H; discriminate).
  assert (Hf : truthy (prop sent "amount") = false \/ truthy (prop sent "currency") = false)
    by (destruct H as [-> | ->]; [left | right]; reflexivity).
  pose proof (createPaymentIntent_falsy typeError key sent Hb Hf) as Hh.
  split; [exact Hh |]. split; [rewrite Hh; apply noCall_Ret |]. split.
  - intros isIP e store now req Hm Hp Hs.
    apply app_answers_at_once; [assumption |].
    rewrite (routes_payments typeError e req Hm Hp), Hs.
    now apply createPaymentIntent_falsy.
  - intros key' sent'. apply createPaymentIntent_400.
Qed.

Lemma payment_rejects_falsy_fields_witness :
  createPaymentIntent v8Messages (deviceKey paymentZeroAmount) (body paymentZeroAmount)
  = Ret amountAndCurrencyRequired
  /\ fst (app v8Messages isIPv4Only keyedEnv ∅ 0 paymentZeroAmount)
     = Ret amountAndCurrencyRequired.
Proof.
  destruct (payment_rejects_falsy_fields v8Messages
              (deviceKey paymentZeroAmount) (body paymentZeroAmount)) as (Hh & _ & Ha & _).
  - left. reflexivity.
  - split; [exact Hh |].
    apply (Ha isIPv4Only keyedEnv ∅ 0%Z paymentZeroAmount); reflexivity.
Defined.

(** ** Reader in production mode *)






(** ** Client identity *)

(** C8, as amended.  The client-identity extractor returns a string for
    every forwarding header and socket address; when neither the cleaned
    forwarding token nor the cleaned socket address is a valid IP address,
    that string is the cleaned forwarding token itself if it is not empty,
    and the literal "unknown" only if it is empty. *)
Theorem client_ip_without_valid_address (isIP : string -> nat) (req : Request) :
  isIP (forwardedToken req) = 0 ->
  isIP (socketAddress req) = 0 ->
  (exists id : string, getClientIp isIP req = id)
  /\ getClientIp isIP req
     = (if Js.nonEmpty (forwardedToken req) then forwardedToken req else "unknown")
  /\ (forwardedToken req = "" -> getClientIp isIP req = "unknown").
Proof.
  intros Ht Hs.
  assert (H : getClientIp isIP req
              = if Js.nonEmpty (forwardedToken req) then forwardedToken req else "unknown").
  { unfold getClientIp. cbv zeta. now rewrite Ht, Hs. }
  split; [eauto |]. split; [exact H |].
  intros He. rewrite H, He. reflexivity.
Qed.

Lemma client_ip_without_valid_address_witness :
  getClientIp isIPv4Only anonymous = "unknown".
Proof.
  destruct (client_ip_without_valid_address isIPv4Only anonymous) as (_ & _ & H).
  - reflexivity.
  - reflexivity.
  - apply H. reflexivity.
Defined.

(** C8 as stated fails on a forwarding header that names no address when
    the socket has none either (as behind a pipe): the token is returned,
    not "unknown".  (Every [isIP] that rejects "garbage" and the empty
    string agrees with [isIPv4Only] here.) *)
Lemma client_ip_returns_invalid_token :
  isIPv4Only (forwardedToken behindPipe) = 0
  /\ isIPv4Only (socketAddress behindPipe) = 0
  /\ getClientIp isIPv4Only behindPipe = "garbage"
  /\ getClientIp isIPv4Only behindPipe <> "unknown".
Proof.
  split; [reflexivity |]. split; [reflexivity |]. split; [reflexivity |].
  vm_compute. discriminate.
Qed.

(** ** Rate limit *)


Section RateLimit.

Variable isIP : string -> nat.
Variable e : Env.









End RateLimit.










(** * Further properties *)

(** ** Key check *)

Lemma authMiddleware_Next (e : Env) (req : Request) :
  authMiddleware e req = Next
  <-> exists v, presented req = Some v /\ isSecret e v.
Proof.
  assert (Hvalid : hasValidKey e (presented req) = true
                   <-> exists v, presented req = Some v /\ isSecret e v).
  { destruct (presented req) as [v|].
    - rewrite hasValidKey_isSecret. split; [eauto |].
      intros (w & Hw & Hs). now injection Hw as ->.
    - split; [discriminate | intros (w & Hw & _); discriminate]. }
  rewrite <- Hvalid.
  destruct (Js.nonEmpty (SINGLE_API_KEY e)) eqn:Hs.
  - rewrite authMiddleware_configured by (left; now apply nonEmpty_true).
    destruct (hasValidKey e (presented req)); split; congruence.
  - destruct (decide (MULTI_KEYS e = ∅)) as [Hm | Hm].
    + rewrite authMiddleware_unconfigured;
        [| destruct (SINGLE_API_KEY e); [reflexivity | discriminate] | assumption].
      split; [discriminate |]. intros Hv. apply Hvalid in Hv as (v & _ & [[Hne _] | Hin]).
      * apply nonEmpty_true in Hne. congruence.
      * rewrite Hm in Hin. now apply not_elem_of_empty in Hin.
    + rewrite authMiddleware_configured by now right.
      destruct (hasValidKey e (presented req)); split; congruence.
Qed.

(** X1.  The key check hands a request on exactly when the credential it
    presents is one of the configured secrets; with nothing configured no
    credential is. *)
Theorem auth_admits_exactly_secrets (e : Env) (req : Request) :
  authMiddleware e req = Next
  <-> exists v, presented req = Some v /\ isSecret e v.
Proof. apply authMiddleware_Next. Qed.

(** X2.  [x-device-key] is read only when [x-api-key] is absent or empty: a
    request whose non-empty [x-api-key] is not a configured secret gets 401
    whatever its [x-device-key] holds. *)
Theorem api_key_header_takes_precedence (e : Env) (req : Request) (k : string) :
  SINGLE_API_KEY e <> "" \/ MULTI_KEYS e <> ∅ ->
  header req "x-api-key" = Some k ->
  k <> "" ->
  ~ isSecret e k ->
  authMiddleware e req = Respond (errorResponse 401 (JStr "Unauthorized")).
Proof.
  intros Hc Hh Hk Hs. rewrite authMiddleware_configured by assumption.
  assert (Hp : presented req = Some k).
  { unfold presented. rewrite Hh. apply nonEmpty_true in Hk. now rewrite Hk. }
  rewrite Hp. destruct (hasValidKey e (Some k)) eqn:Hv; [| reflexivity].
  apply hasValidKey_isSecret in Hv. contradiction.
Qed.

Lemma api_key_header_takes_precedence_witness :
  header paymentTwoKeys "x-device-key" = Some "bar-1"
  /\ isSecret keyedEnv "bar-1"
  /\ authMiddleware keyedEnv paymentTwoKeys
     = Respond (errorResponse 401 (JStr "Unauthorized")).
Proof.
  split; [reflexivity |]. split.
  - apply hasValidKey_isSecret. vm_compute. reflexivity.
  - apply (api_key_header_takes_precedence keyedEnv paymentTwoKeys "guess").
    + left. vm_compute. discriminate.
    + reflexivity.
    + discriminate.
    + intros Hs. apply hasValidKey_isSecret in Hs. vm_compute in Hs. discriminate.
Defined.

(** X3.  A request the key check refuses is not counted by the rate
    limiter and causes no processor call: the counters are those found. *)
Theorem refused_request_is_not_counted (typeError : Thrown -> string) (isIP : string -> nat) (e : Env)
  (store : gmap string Hits) (now : Z) (req : Request) :
  underApi req = true ->
  hasValidKey e (presented req) = false ->
  snd (app typeError isIP e store now req) = store
  /\ noCall (fst (app typeError isIP e store now req)).
Proof.
  intros Hu Hv.
  assert (Ha : exists r, authMiddleware e req = Respond r).
  { unfold authMiddleware. destruct (negb _ && noMultiKeys e); [eauto |].
    rewrite Hv. simpl. eauto. }
  destruct Ha as [r Ha]. destruct (isPreflight req) eqn:Hp.
  - rewrite (app_preflight typeError isIP e store now req Hp).
    split; [reflexivity | apply noCall_Ret].
  - rewrite (app_auth_answers typeError isIP e store now req r Hp Hu Ha).
    split; [reflexivity | apply noCall_Ret].
Qed.

Lemma refused_request_is_not_counted_witness :
  snd (app v8Messages isIPv4Only keyedEnv ∅ 0 paymentGuessedKey) = ∅
  /\ noCall (fst (app v8Messages isIPv4Only keyedEnv ∅ 0 paymentGuessedKey)).
Proof.
  apply (refused_request_is_not_counted v8Messages isIPv4Only keyedEnv ∅ 0
           paymentGuessedKey).
  - reflexivity.
  - vm_compute. reflexivity.
Defined.

(** ** Routing *)

Lemma onPath_underApi (req : Request) (rest : list string) :
  onPath req ("api" :: rest) = true -> underApi req = true.
Proof.
  unfold onPath, underApi. intros H. apply bool_decide_eq_true in H.
  destruct (path req) as [|seg segs]; [discriminate |].
  simpl in H. injection H as Hs _. rewrite Hs. reflexivity.
Qed.

(** Outside [/api] the route table answers by itself. *)
Lemma routes_outside_api typeError (e : Env) (req : Request) :
  underApi req = false -> exists r, routes typeError e req = Ret r.
Proof.
  intros Hu. unfold routes.
  assert (Hno : forall rest, onPath req ("api" :: rest) = false).
  { intros rest. destruct (onPath req ("api" :: rest)) eqn:H; [| reflexivity].
    apply onPath_underApi in H. congruence. }
  rewrite !Hno, !andb_false_r.
  destruct (path req) as [|a [|b [|id [|]]]];
    rewrite ?Hno, ?andb_false_r; try destruct (_ && _); eauto.
Qed.

Lemma routes_health typeError (e : Env) (req : Request) :
  isMethod req "GET" = true -> onPath req ["health"] = true ->
  routes typeError e req = Ret (health e) /\ underApi req = false.
Proof.
  intros Hm Hp. unfold routes, underApi, isGet, isMethod in *.
  destruct (String.eqb_spec (method req) "GET") as [Hg|]; [| discriminate].
  rewrite Hg. simpl. rewrite Hp.
  unfold onPath in Hp. apply bool_decide_eq_true in Hp.
  destruct (path req) as [|a [|b rest]]; try discriminate.
  simpl in Hp. injection Hp as Hp. rewrite Hp. split; reflexivity.
Qed.

(** X4.  The liveness route stays open: [GET /health] is answered 200 with
    the mode in its message for every configuration (none at all included),
    every header and every state of the counters, which it leaves as they
    are; no processor call is made. *)
Theorem health_is_open (typeError : Thrown -> string) (isIP : string -> nat) (e : Env)
  (store : gmap string Hits) (now : Z) (req : Request) :
  isMethod req "GET" = true ->
  onPath req ["health"] = true ->
  app typeError isIP e store now req
  = (Ret (ok (JObj [("ok", JBool true);
                    ("message", JStr ("Backend reachable (" +:+ ENV e +:+ ")"))])),
     store).
Proof.
  intros Hm Hp. destruct (routes_health typeError e req Hm Hp) as [Hr Hu].
  apply isMethod_eq in Hm. unfold app, cors, isPreflight. now rewrite Hm, Hu, Hr.
Qed.

Lemma health_is_open_witness :
  app v8Messages isIPv4Only noEnv ∅ 0 healthCheck
  = (Ret (ok (JObj [("ok", JBool true);
                    ("message", JStr "Backend reachable (test)")])), ∅).
Proof.
  apply (health_is_open v8Messages isIPv4Only noEnv ∅ 0 healthCheck); reflexivity.
Defined.

(** X5.  Every processor call is made for a request that carries a
    configured secret: if a request, to whatever path, causes a call at some
    processor, then the credential it presents is one of the configured
    secrets, the rate limiter has handed it on, and if it is a POST it
    carries a non-empty [Idempotency-Key]. *)
Theorem calls_only_for_admitted_requests (typeError : Thrown -> string) (isIP : string -> nat) (e : Env)
  (store : gmap string Hits) (now : Z) (req : Request)
  (stripe : list StripeCall -> StripeCall -> Settled) :
  callsMade stripe (fst (app typeError isIP e store now req)) <> [] ->
  (exists v, presented req = Some v /\ isSecret e v)
  /\ fst (limiter isIP e store now req) = Next
  /\ (method req = "POST" -> isSet (header req "Idempotency-Key") = true).
Proof.
  intros Hc. unfold app, cors in Hc.
  destruct (isPreflight req); [now destruct Hc |].
  destruct (underApi req) eqn:Hu.
  - unfold admission in Hc.
    destruct (authMiddleware e req) eqn:Ha; [| now destruct Hc].
    destruct (limiter isIP e store now req) as [[|r] store'] eqn:Hl;
      [| now destruct Hc].
    destruct (requireIdempotencyKey req) eqn:Hi; [| now destruct Hc].
    split; [now apply authMiddleware_Next |]. split; [reflexivity |].
    intros Hm. unfold requireIdempotencyKey in Hi. rewrite Hm in Hi. simpl in Hi.
    now destruct (isSet (header req "Idempotency-Key")).
  - simpl in Hc.
    destruct (routes_outside_api typeError e req Hu) as [r Hr]. rewrite Hr in Hc.
    now destruct Hc.
Qed.

Lemma calls_only_for_admitted_requests_witness :
  (exists v, presented payment = Some v /\ isSecret keyedEnv v)
  /\ fst (limiter isIPv4Only keyedEnv ∅ 0 payment) = Next
  /\ (method payment = "POST" -> isSet (header payment "Idempotency-Key") = true).
Proof.
  apply (calls_only_for_admitted_requests v8Messages isIPv4Only keyedEnv ∅ 0 payment
           (rejecting JNull)).
  vm_compute. discriminate.
Defined.

(** ** Configured keys *)

Lemma append_empty_r (s : string) : s +:+ "" = s.
Proof. induction s as [|c s IH]; simpl; [reflexivity | now rewrite IH]. Qed.

Lemma orDefault_empty (o : option string) :
  orDefault o "" = match o with Some s => s | None => "" end.
Proof. destruct o as [[|c s]|]; reflexivity. Qed.

Lemma splitFields_key (k rest acc : string) (b : bool) :
  allChars (fun c => negb (Js.isKeySeparator c)) k = true ->
  Js.splitFields (k +:+ rest) acc b
  = Js.splitFields rest (acc +:+ k) (if Js.nonEmpty k then false else b).
Proof.
  revert acc b. induction k as [|c k IH]; intros acc b H; simpl.
  - now rewrite append_empty_r.
  - simpl in H. apply andb_true_iff in H as [Hc Hk].
    apply negb_true_iff in Hc. rewrite Hc, (IH _ _ Hk), append_assoc. simpl.
    now destruct (Js.nonEmpty k).
Qed.

Lemma splitFields_separators (sep rest : string) :
  allChars Js.isKeySeparator sep = true ->
  Js.splitFields (sep +:+ rest) "" true = Js.splitFields rest "" true.
Proof.
  induction sep as [|c sep IH]; intros H; simpl; [reflexivity |].
  simpl in H. apply andb_true_iff in H as [Hc Hs]. rewrite Hc. now apply IH.
Qed.

Lemma splitFields_separatorRun (sep rest acc : string) :
  separatorRun sep = true ->
  Js.splitFields (sep +:+ rest) acc false = acc :: Js.splitFields rest "" true.
Proof.
  unfold separatorRun. destruct sep as [|c sep]; [discriminate |]. simpl.
  intros H. apply andb_true_iff in H as [Hc Hs]. rewrite Hc.
  now rewrite splitFields_separators.
Qed.

Lemma trim_key (k : string) :
  allChars (fun c => negb (Js.isKeySeparator c)) k = true -> Js.trim k = k.
Proof.
  intros H.
  assert (Hs : allChars (fun c => negb (Js.isSpace c)) k = true).
  { induction k as [|c k IH]; [reflexivity |]. simpl in *.
    apply andb_true_iff in H as [Hc Hk]. rewrite (IH Hk), andb_true_r.
    unfold Js.isKeySeparator in Hc. apply negb_true_iff in Hc.
    apply orb_false_iff in Hc as [-> _]. reflexivity. }
  clear H. unfold Js.trim.
  assert (Hstart : Js.trimStart k = k).
  { destruct k as [|c k]; [reflexivity |]. simpl in *.
    apply andb_true_iff in Hs as [Hc _]. apply negb_true_iff in Hc. now rewrite Hc. }
  rewrite Hstart. induction k as [|c k IH]; [reflexivity |].
  simpl in Hs. apply andb_true_iff in Hs as [Hc Hk]. apply negb_true_iff in Hc.
  simpl. rewrite IH; [| assumption | destruct k as [|d k]; [reflexivity |];
    simpl in *; apply andb_true_iff in Hk as [Hd _]; apply negb_true_iff in Hd;
    now rewrite Hd].
  rewrite Hc. now destruct k.
Qed.

(** The fields a split yields, as the key set takes them: trimmed, the
    empty ones dropped. *)
Lemma keys_cons_key (k : string) (fields : list string) :
  keyLike k = true ->
  filter (fun s => Js.nonEmpty s = true) (map Js.trim (k :: fields))
  = k :: filter (fun s => Js.nonEmpty s = true) (map Js.trim fields).
Proof.
  unfold keyLike. intros H. apply andb_true_iff in H as [Hk1 Hk2].
  cbn [map]. rewrite (trim_key _ Hk2), filter_cons, decide_True by assumption.
  reflexivity.
Qed.

Lemma keys_cons_empty (fields : list string) :
  filter (fun s => Js.nonEmpty s = true) (map Js.trim ("" :: fields))
  = filter (fun s => Js.nonEmpty s = true) (map Js.trim fields).
Proof. cbn [map]. rewrite filter_cons, decide_False; [reflexivity | discriminate]. Qed.

Lemma splitFields_trail (trail acc : string) :
  separators trail = true ->
  filter (fun s => Js.nonEmpty s = true) (map Js.trim (Js.splitFields trail acc false))
  = filter (fun s => Js.nonEmpty s = true) (map Js.trim [acc]).
Proof.
  unfold separators. destruct trail as [|c trail]; [reflexivity |].
  intros H. rewrite <- (append_empty_r (String c trail)).
  rewrite splitFields_separatorRun by exact H.
  cbn [Js.splitFields map]. rewrite !filter_cons, !filter_nil.
  rewrite (decide_False (P := Js.nonEmpty (Js.trim "") = true)) by discriminate.
  reflexivity.
Qed.

Lemma keys_of_keysAfter (more : list (string * string)) (trail : string) :
  wellSeparated more -> separators trail = true ->
  forall acc, keyLike acc = true ->
  filter (fun s => Js.nonEmpty s = true)
    (map Js.trim (Js.splitFields (keysAfter more trail) acc false))
  = acc :: map snd more.
Proof.
  intros Hm Ht. induction Hm as [|[sep k] more [Hsep Hk] _ IH]; intros acc Hacc.
  - cbn [keysAfter map]. rewrite (splitFields_trail _ _ Ht), keys_cons_key by assumption.
    reflexivity.
  - cbn [keysAfter map fst snd] in *.
    rewrite (splitFields_separatorRun _ _ _ Hsep), keys_cons_key by assumption.
    f_equal. pose proof Hk as Hk'. unfold keyLike in Hk'.
    apply andb_true_iff in Hk' as [Hk1 Hk2].
    rewrite (splitFields_key _ _ _ _ Hk2), Hk1. now apply IH.
Qed.

Lemma keys_of_keysText (lead first : string) (more : list (string * string))
  (trail : string) :
  separators lead = true -> keyLike first = true ->
  wellSeparated more -> separators trail = true ->
  filter (fun s => Js.nonEmpty s = true)
    (map Js.trim (Js.splitKeys (keysText lead first more trail)))
  = first :: map snd more.
Proof.
  intros Hl Hf Hm Ht. unfold Js.splitKeys, keysText.
  pose proof Hf as Hf'. unfold keyLike in Hf'. apply andb_true_iff in Hf' as [Hf1 Hf2].
  destruct lead as [|c lead].
  - change ("" +:+ first +:+ keysAfter more trail)
      with (first +:+ keysAfter more trail).
    rewrite (splitFields_key _ _ _ _ Hf2), Hf1. now apply keys_of_keysAfter.
  - rewrite (splitFields_separatorRun (String c lead) _ _ Hl), keys_cons_empty.
    rewrite (splitFields_key _ _ _ _ Hf2), Hf1. now apply keys_of_keysAfter.
Qed.

(** X6.  Keys written into [POS_BACKEND_KEYS] with any run of commas and
    white space between them, each gap with a run of its own, and with
    commas and white space before the first key and after the last or not,
    are read back as exactly that set; each of them is accepted as a
    credential, and nothing else is but the single key. *)
Theorem listed_keys_are_the_key_set (e : Env) (lead first : string)
  (more : list (string * string)) (trail : string) :
  separators lead = true ->
  keyLike first = true ->
  wellSeparated more ->
  separators trail = true ->
  POS_BACKEND_KEYS e = Some (keysText lead first more trail) ->
  let ks := first :: map snd more in
  MULTI_KEYS e = list_to_set ks
  /\ (forall k, k ∈ ks -> hasValidKey e (Some k) = true)
  /\ (forall v, hasValidKey e (Some v) = true -> v ∈ ks \/ v = SINGLE_API_KEY e).
Proof.
  intros Hl Hf Hmore Ht He ks.
  assert (Hm : MULTI_KEYS e = list_to_set ks).
  { unfold MULTI_KEYS, MULTI_KEYS_RAW. rewrite He, orDefault_empty.
    now rewrite keys_of_keysText. }
  split; [exact Hm |]. split.
  - intros k Hk. apply hasValidKey_isSecret. right. rewrite Hm.
    now apply elem_of_list_to_set.
  - intros v Hv. apply hasValidKey_isSecret in Hv as [[_ ->] | Hin]; [now right |].
    left. rewrite Hm in Hin. now apply elem_of_list_to_set in Hin.
Qed.

Lemma listed_keys_are_the_key_set_witness :
  MULTI_KEYS mixedKeysEnv = list_to_set ["a"; "b"; "c"]
  /\ (forall k, k ∈ ["a"; "b"; "c"] -> hasValidKey mixedKeysEnv (Some k) = true)
  /\ (forall v, hasValidKey mixedKeysEnv (Some v) = true ->
        v ∈ ["a"; "b"; "c"] \/ v = SINGLE_API_KEY mixedKeysEnv).
Proof.
  apply (listed_keys_are_the_key_set mixedKeysEnv " " "a" [(", ", "b"); (",", "c")] " ,").
  - reflexivity.
  - reflexivity.
  - repeat constructor.
  - reflexivity.
  - reflexivity.
Defined.






(** ** Handlers and the processor *)

Lemma routes_token typeError (e : Env) (req : Request) :
  isMethod req "POST" = true ->
  onPath req ["api"; "terminal"; "connection_token"] = true ->
  routes typeError e req = createConnectionToken typeError.
Proof.
  intros Hm Hp. unfold routes, onPath in *.
  apply bool_decide_eq_true in Hp. rewrite Hm, Hp. reflexivity.
Qed.

(** What the route table can do with a request. *)
Lemma routes_cases typeError (e : Env) (req : Request) :
  (exists r, routes typeError e req = Ret r)
  \/ routes typeError e req = createPaymentIntent typeError (deviceKey req) (body req)
  \/ routes typeError e req = createConnectionToken typeError
  \/ routes typeError e req = processOnReader typeError e (body req)
  \/ (exists id, routes typeError e req = getPaymentIntent typeError id).
Proof.
  unfold routes.
  destruct (_ && _); [now right; left |].
  destruct (_ && _); [now right; right; left |].
  destruct (_ && _); [now right; right; right; left |].
  destruct (path req) as [|a [|b [|id [|]]]];
    try (destruct (_ && _); eauto 10).
Qed.

(** With the processor down a handler stops at its first call. *)
Lemma handlers_when_rejected typeError (e : Env) (key sent : JsValue) (id : string)
  (message : JsValue) (p : Prog Response) :
  p = createPaymentIntent typeError key sent \/ p = createConnectionToken typeError
  \/ p = processOnReader typeError e sent \/ p = getPaymentIntent typeError id ->
  callsMade (rejecting message) p = []
  \/ (length (callsMade (rejecting message) p) = 1
      /\ answer (rejecting message) p = errorResponse 500 message).
Proof.
  unfold callsMade, answer.
  intros [-> | [-> | [-> | ->]]].
  - unfold createPaymentIntent. destruct (nullish sent); [simpl; auto |].
    destruct (negb _ || negb _); [simpl; auto |].
    destruct (negb _ && unprintable _); [simpl; auto |].
    destruct (unprintable _); [simpl; auto |].
    destruct (negb _ && unprintable _); simpl; auto.
  - simpl. auto.
  - unfold processOnReader, processOnReaderId. destruct (nullish sent); [simpl; auto |].
    destruct (isProd e); [| simpl; auto].
    destruct (negb _); [simpl; auto |].
    destruct (unprintable _); simpl; auto.
  - simpl. auto.
Qed.

(** X8.  When the processor rejects every call, no request costs it more
    than one call, and a request that reached it is answered 500 with the
    processor's own message: nothing is retried and no later step is
    attempted. *)
Theorem processor_down_one_call_at_most (typeError : Thrown -> string)
  (isIP : string -> nat) (e : Env)
  (store : gmap string Hits) (now : Z) (req : Request) (message : JsValue) :
  let served := fst (app typeError isIP e store now req) in
  callsMade (rejecting message) served = []
  \/ (length (callsMade (rejecting message) served) = 1
      /\ answer (rejecting message) served = errorResponse 500 message).
Proof.
  intros served. unfold served.
  destruct (app_cases typeError isIP e store now req) as [[r ->] | ->]; [now left |].
  destruct (routes_cases typeError e req) as [[r ->] | [-> | [-> | [-> | [id ->]]]]].
  - now left.
  - apply (handlers_when_rejected typeError e (deviceKey req) (body req) ""). auto.
  - apply (handlers_when_rejected typeError e (deviceKey req) (body req) ""). auto.
  - apply (handlers_when_rejected typeError e (deviceKey req) (body req) ""). auto.
  - apply (handlers_when_rejected typeError e (deviceKey req) (body req) id). auto.
Qed.

Lemma isProd_prod (e : Env) : isProd e = true <-> ENV e = "prod".
Proof. unfold isProd. now destruct (String.eqb_spec (ENV e) "prod"). Qed.

Lemma isProd_other (e : Env) : ENV e <> "prod" -> isProd e = false.
Proof.
  intros He. destruct (isProd e) eqn:H; [| reflexivity].
  apply isProd_prod in H. contradiction.
Qed.

(** X9.  In production mode with a reader configured, a charge costs the
    processor exactly one call, addressed to the configured reader and
    keyed by the intent: no reader is created and no test card is presented,
    even when [STRIPE_SIMULATE_CARD] is "true", and however the call
    settles.  The charges that cost no call at all are those that throw
    before it: a request without a body, and a [payment_intent_id] that
    cannot be written into the key. *)
Theorem production_charges_configured_reader (typeError : Thrown -> string)
  (e : Env) (sent : JsValue)
  (reader : string) (stripe : list StripeCall -> StripeCall -> Settled) :
  ENV e = "prod" ->
  STRIPE_TERMINAL_ID_PROD e = Some reader ->
  reader <> "" ->
  callsMade stripe (processOnReader typeError e sent)
  = if nullish sent || unprintable (prop sent "payment_intent_id") then []
    else [terminal_readers_processPaymentIntent (JStr reader)
            (JObj [("payment_intent", prop sent "payment_intent_id")])
            (JObj [("idempotencyKey",
                    JStr ("pi-process-" +:+ toString (prop sent "payment_intent_id")))])].
Proof.
  intros He Ht Hr. apply isProd_prod in He. apply nonEmpty_true in Hr.
  unfold callsMade, processOnReader, processOnReaderId, STRIPE_TERMINAL_ID.
  destruct (nullish sent); [reflexivity |].
  rewrite He, Ht. simpl. rewrite Hr. simpl.
  destruct (unprintable _); [reflexivity |]. simpl.
  now destruct (stripe _ _).
Qed.

Lemma production_charges_configured_reader_witness :
  callsMade (scripted [Resolved (JObj [("id", JStr "tmr_1")])])
    (processOnReader v8Messages readerEnv (body charge))
  = [terminal_readers_processPaymentIntent (JStr "tmr_1")
       (JObj [("payment_intent", JStr "pi_1")])
       (JObj [("idempotencyKey", JStr "pi-process-pi_1")])].
Proof.
  apply (production_charges_configured_reader v8Messages readerEnv (body charge) "tmr_1");
    [reflexivity | reflexivity | discriminate].
Defined.

(** X10.  Outside production mode (any [STRIPE_ENV] other than "prod") every
    charge that has a body first registers a simulated reader, and whatever
    follows is addressed to the reader that registration returned, never to
    [STRIPE_TERMINAL_ID_PROD]; if the registration fails nothing follows,
    and if it succeeds something follows exactly when it resolved with a
    value that has members (not [undefined] or [null]) and an [id] that can
    be written into the log line, and the [payment_intent_id] can be written
    into the idempotency key. *)
Theorem test_mode_registers_its_reader (typeError : Thrown -> string)
  (e : Env) (sent : JsValue)
  (stripe : list StripeCall -> StripeCall -> Settled) :
  ENV e <> "prod" ->
  nullish sent = false ->
  exists params rest,
    callsMade stripe (processOnReader typeError e sent) = terminal_readers_create params :: rest
    /\ prop params "registration_code" = JStr "simulated-wpe"
    /\ match stripe [] (terminal_readers_create params) with
       | Resolved registered =>
           (rest <> [] <-> registers registered = true
                           /\ unprintable (prop sent "payment_intent_id") = false) /\
           Forall (fun call => readerAddressed call = Some (prop registered "id")) rest
       | Rejected _ => rest = []
       end.
Proof.
  intros He Hb. apply isProd_other in He.
  exists (JObj [("registration_code", JStr "simulated-wpe");
                ("label", JStr "Simulated POS");
                ("location", ofOption (STRIPE_LOCATION_ID e))]).
  unfold callsMade, processOnReader, processOnReaderId. rewrite Hb, He. simpl.
  destruct (stripe [] _) as [registered | m]; simpl.
  - unfold registers. destruct (nullish registered); simpl.
    { exists []. split; [reflexivity |]. split; [reflexivity |].
      split; [| constructor]. split; [congruence | intros [H _]; discriminate]. }
    destruct (unprintable (prop registered "id")); simpl.
    { exists []. split; [reflexivity |]. split; [reflexivity |].
      split; [| constructor]. split; [congruence | intros [H _]; discriminate]. }
    destruct (unprintable _); simpl.
    + exists []. split; [reflexivity |]. split; [reflexivity |].
      split; [| constructor]. split; [congruence | intros [_ H]; discriminate].
    + destruct (stripe [_] _) as [processed | m]; simpl.
      * destruct (isString _ _); simpl; eexists;
          (split; [reflexivity |]; split; [reflexivity |];
           split; [split; [now split | discriminate] |]);
          repeat constructor.
      * eexists. split; [reflexivity |]. split; [reflexivity |].
        split; [split; [now split | discriminate] | repeat constructor].
  - exists []. repeat split.
Qed.

Lemma test_mode_registers_its_reader_witness :
  exists params rest,
    callsMade (scripted [Resolved (JObj [("id", JStr "tmr_sim")]); Resolved JNull])
      (processOnReader v8Messages simulatingEnv (body charge))
    = terminal_readers_create params :: rest
    /\ prop params "registration_code" = JStr "simulated-wpe"
    /\ match scripted [Resolved (JObj [("id", JStr "tmr_sim")]); Resolved JNull] []
               (terminal_readers_create params) with
       | Resolved registered =>
           (rest <> [] <-> registers registered = true
                           /\ unprintable (prop (body charge) "payment_intent_id") = false) /\
           Forall (fun call => readerAddressed call = Some (prop registered "id")) rest
       | Rejected _ => rest = []
       end.
Proof.
  apply (test_mode_registers_its_reader v8Messages simulatingEnv (body charge)).
  - vm_compute. discriminate.
  - reflexivity.
Defined.

(** X11.  Presenting the simulated card is best effort: outside production
    mode, for a charge that has a body and a [payment_intent_id] that can be
    written into the idempotency key, once the reader is registered (the
    registration resolving with a value that has members and an [id] that
    can be written into the log line) and the intent is handed to it, the
    charge is answered 200 with the processor's result whether the card
    presentation that may follow succeeds or fails. *)
Theorem card_simulation_failure_is_swallowed (typeError : Thrown -> string)
  (e : Env) (sent : JsValue)
  (registered processed : JsValue) (third : Settled) :
  ENV e <> "prod" ->
  nullish sent = false ->
  unprintable (prop sent "payment_intent_id") = false ->
  registers registered = true ->
  answer (scripted [Resolved registered; Resolved processed; third])
    (processOnReader typeError e sent)
  = ok (JObj [("reader", processed)]).
Proof.
  intros He Hb Hu Hr. apply isProd_other in He.
  unfold registers in Hr. apply andb_true_iff in Hr as [Hn Hi].
  apply negb_true_iff in Hn, Hi.
  unfold answer, processOnReader, processOnReaderId. rewrite Hb, He. simpl.
  rewrite Hn, Hi, Hu. simpl. now destruct (isString _ _).
Qed.

Lemma card_simulation_failure_is_swallowed_witness :
  answer (scripted [Resolved (JObj [("id", JStr "tmr_sim")]);
                    Resolved (JObj [("action", JStr "process_payment_intent")]);
                    Rejected (JStr "card declined")])
    (processOnReader v8Messages simulatingEnv (body charge))
  = ok (JObj [("reader", JObj [("action", JStr "process_payment_intent")])])
  /\ length (callsMade (scripted [Resolved (JObj [("id", JStr "tmr_sim")]);
                    Resolved (JObj [("action", JStr "process_payment_intent")]);
                    Rejected (JStr "card declined")])
               (processOnReader v8Messages simulatingEnv (body charge))) = 3.
Proof.
  split; [| reflexivity].
  apply (card_simulation_failure_is_swallowed v8Messages simulatingEnv (body charge)).
  - vm_compute. discriminate.
  - reflexivity.
  - reflexivity.
  - reflexivity.
Defined.

(** The idempotency keys a charge can send. *)
Lemma processOnReader_keys typeError (e : Env) (sent : JsValue)
  (stripe : list StripeCall -> StripeCall -> Settled) :
  Forall (fun call =>
            idempotencyKeySent call = JUndefined
            \/ idempotencyKeySent call = JStr (processKey (prop sent "payment_intent_id")))
    (callsMade stripe (processOnReader typeError e sent)).
Proof.
  unfold callsMade, processOnReader, processOnReaderId.
  destruct (nullish sent); [constructor |].
  destruct (isProd e).
  - destruct (negb _); simpl; [constructor |].
    destruct (unprintable _); simpl; [constructor |].
    destruct (stripe _ _); simpl; repeat constructor; now right.
  - simpl. destruct (stripe [] _) as [reader | m]; simpl;
      [| repeat constructor; now left].
    destruct (nullish reader); simpl; [repeat constructor; now left |].
    destruct (unprintable (prop reader "id")); simpl; [repeat constructor; now left |].
    destruct (unprintable _); simpl; [repeat constructor; now left |].
    destruct (stripe [_] _); simpl.
    + destruct (isString _ _); simpl; repeat constructor; (now left) || (now right).
    + repeat constructor; (now left) || (now right).
Qed.

(** X12.  The idempotency key under which an intent is handed to a reader
    tells the intent: charges for two different intent ids (strings) never
    send the same key, in any mode and however the processor answers. *)
Theorem process_keys_tell_intents_apart (typeError : Thrown -> string)
  (e : Env) (a b : string)
  (stripe stripe' : list StripeCall -> StripeCall -> Settled) (ca cb : StripeCall) :
  a <> b ->
  ca ∈ callsMade stripe (processOnReader typeError e (JObj [("payment_intent_id", JStr a)])) ->
  cb ∈ callsMade stripe' (processOnReader typeError e (JObj [("payment_intent_id", JStr b)])) ->
  idempotencyKeySent ca <> JUndefined ->
  idempotencyKeySent ca <> idempotencyKeySent cb.
Proof.
  intros Hab Ha Hb Hdef Heq.
  pose proof (processOnReader_keys typeError e
                (JObj [("payment_intent_id", JStr a)]) stripe) as Fa.
  pose proof (processOnReader_keys typeError e
                (JObj [("payment_intent_id", JStr b)]) stripe') as Fb.
  rewrite Forall_forall in Fa, Fb.
  destruct (Fa _ Ha) as [Hu | Hka]; [contradiction |].
  destruct (Fb _ Hb) as [Hu | Hkb]; [congruence |].
  rewrite Hka, Hkb in Heq. injection Heq as Heq.
  unfold processKey in Heq. simpl in Heq. contradiction.
Qed.

Lemma process_keys_tell_intents_apart_witness :
  idempotencyKeySent
    (terminal_readers_processPaymentIntent (JStr "tmr_1")
       (JObj [("payment_intent", JStr "pi_1")])
       (JObj [("idempotencyKey", JStr "pi-process-pi_1")]))
  = JStr "pi-process-pi_1"
  /\ idempotencyKeySent
       (terminal_readers_processPaymentIntent (JStr "tmr_1")
          (JObj [("payment_intent", JStr "pi_1")])
          (JObj [("idempotencyKey", JStr "pi-process-pi_1")]))
     <> idempotencyKeySent
          (terminal_readers_processPaymentIntent (JStr "tmr_1")
             (JObj [("payment_intent", JStr "pi_2")])
             (JObj [("idempotencyKey", JStr "pi-process-pi_2")])).
Proof.
  split; [reflexivity |].
  apply (process_keys_tell_intents_apart v8Messages readerEnv "pi_1" "pi_2"
           (rejecting JNull) (scripted [Resolved JNull])).
  - discriminate.
  - vm_compute. apply list_elem_of_here.
  - vm_compute. apply list_elem_of_here.
  - discriminate.
Defined.

(** ** Status summary *)

Lemma orNull_defined (v : JsValue) : orNull v <> JUndefined.
Proof.
  unfold orNull, orElse. destruct (truthy v) eqn:H; [| discriminate].
  intros ->. discriminate.
Qed.

Lemma coalesce_null_defined (v : JsValue) : coalesce v JNull <> JUndefined.
Proof. destruct v; discriminate. Qed.

(** X13.  The summary of an intent always spells out its error and charge
    members: whatever the processor returned, [last_payment_error] and the
    five [latest_charge_*] members are a value or [null], never [undefined]
    (which JSON would drop), and so are the four members of a reported
    [last_payment_error]. *)
Theorem summary_members_are_never_undefined (intent : JsValue) :
  Forall (fun k => prop (intentSummary intent) k <> JUndefined) nullableMembers
  /\ (prop (intentSummary intent) "last_payment_error" = JNull
      \/ Forall (fun k => prop (prop (intentSummary intent) "last_payment_error") k
                          <> JUndefined)
           ["code"; "decline_code"; "message"; "type"]).
Proof.
  split.
  - unfold nullableMembers, intentSummary. cbv zeta.
    repeat constructor; simpl;
      try apply orNull_defined; try apply coalesce_null_defined.
    destruct (truthy _); discriminate.
  - unfold intentSummary. cbv zeta. simpl.
    destruct (truthy _); [right | now left].
    repeat constructor; simpl; apply orNull_defined.
Qed.

(** ** Device attribution *)

Lemma isSecret_nonEmpty (e : Env) (v : string) : isSecret e v -> Js.nonEmpty v = true.
Proof.
  intros [[Hs ->] | Hin]; [now apply nonEmpty_true | now apply MULTI_KEYS_nonEmpty in Hin].
Qed.

Lemma createPaymentIntent_calls typeError (key sent : JsValue)
  (stripe : list StripeCall -> StripeCall -> Settled) (call : StripeCall) :
  call ∈ callsMade stripe (createPaymentIntent typeError key sent) ->
  deviceKeySent call = orElse key (JStr "unknown").
Proof.
  unfold callsMade, createPaymentIntent.
  destruct (nullish sent); simpl; [intros H; now apply elem_of_nil in H |].
  destruct (negb _ || negb _); simpl; [intros H; now apply elem_of_nil in H |].
  destruct (negb _ && unprintable _); simpl; [intros H; now apply elem_of_nil in H |].
  destruct (unprintable _); simpl; [intros H; now apply elem_of_nil in H |].
  destruct (negb _ && unprintable _); simpl; [intros H; now apply elem_of_nil in H |].
  destruct (stripe [] _) as [intent | m]; [destruct (nullish intent) |]; simpl;
    intros H; apply list_elem_of_singleton in H; subst call;
    simpl; now destruct (negb (nullish _)).
Qed.

(** X14.  Every payment intent created through the application is tagged
    with the credential its request presented, which is a configured
    secret: the [device_key] of the metadata is never "unknown" there. *)
Theorem payments_carry_the_presented_secret (typeError : Thrown -> string) (isIP : string -> nat) (e : Env)
  (store : gmap string Hits) (now : Z) (req : Request)
  (stripe : list StripeCall -> StripeCall -> Settled) (call : StripeCall) :
  isMethod req "POST" = true ->
  onPath req ["api"; "payments"] = true ->
  call ∈ callsMade stripe (fst (app typeError isIP e store now req)) ->
  exists v, deviceKeySent call = JStr v /\ presented req = Some v /\ isSecret e v.
Proof.
  intros Hm Hp Hc.
  pose proof (onPath_underApi req _ Hp) as Hu.
  pose proof (post_is_no_preflight req (proj1 (isMethod_eq req "POST") Hm)) as Hpre.
  unfold app, cors, admission in Hc. rewrite Hpre, Hu in Hc.
  destruct (authMiddleware e req) eqn:Ha;
    [| now apply elem_of_nil in Hc].
  apply authMiddleware_Next in Ha as (v & Hv & Hs).
  destruct (limiter isIP e store now req) as [[|r] store'];
    [| now apply elem_of_nil in Hc].
  destruct (requireIdempotencyKey req); [| now apply elem_of_nil in Hc].
  simpl in Hc. rewrite (routes_payments typeError e req Hm Hp) in Hc.
  apply createPaymentIntent_calls in Hc.
  exists v. split; [| now split].
  rewrite Hc. unfold deviceKey. rewrite Hv, (isSecret_nonEmpty e v Hs).
  unfold orElse. simpl. now rewrite (isSecret_nonEmpty e v Hs).
Qed.

Lemma payments_carry_the_presented_secret_witness :
  presented payment = Some "front-desk"
  /\ Forall (fun call => deviceKeySent call = JStr "front-desk")
       (callsMade (rejecting JNull) (fst (app v8Messages isIPv4Only keyedEnv ∅ 0 payment)))
  /\ callsMade (rejecting JNull) (fst (app v8Messages isIPv4Only keyedEnv ∅ 0 payment)) <> [].
Proof.
  split; [reflexivity |]. split; [| vm_compute; discriminate].
  apply Forall_forall. intros call Hc.
  destruct (payments_carry_the_presented_secret v8Messages isIPv4Only keyedEnv ∅ 0 payment
              (rejecting JNull) call eq_refl eq_refl Hc) as (v & Hd & Hp & _).
  rewrite Hd. f_equal. vm_compute in Hp. now injection Hp as <-.
Defined.

(** ** Idempotency header, exactly *)

(** X15.  The idempotency stage hands a request on exactly when it is not a
    POST or carries a non-empty [Idempotency-Key]: an empty value counts as
    a missing header, and no other method needs the header. *)
Theorem idempotency_stage_exactly (req : Request) :
  requireIdempotencyKey req = Next
  <-> Js.toUpperCase (method req) <> "POST"
      \/ exists v, header req "Idempotency-Key" = Some v /\ v <> "".
Proof.
  unfold requireIdempotencyKey.
  destruct (String.eqb_spec (Js.toUpperCase (method req)) "POST") as [Hm | Hm].
  - destruct (header req "Idempotency-Key") as [v|] eqn:Hh; simpl.
    + destruct (Js.nonEmpty v) eqn:Hv; simpl.
      * split; [intros _ | reflexivity]. right. exists v.
        split; [reflexivity | now apply nonEmpty_true].
      * split; [discriminate |]. intros [H | (w & Hw & Hne)]; [contradiction |].
        injection Hw as <-. apply nonEmpty_true in Hne. congruence.
    + split; [discriminate |]. intros [H | (w & Hw & _)]; [contradiction | discriminate].
  - split; [now left | reflexivity].
Qed.

(** ** Client address *)

(** X16.  The key of the rate limiter is never empty, and it is a valid
    address whenever the request offers one: the cleaned forwarding token if
    that is valid, whatever the socket says, else the cleaned socket
    address if that is valid. *)
Theorem client_ip_prefers_valid_addresses (isIP : string -> nat) (req : Request) :
  isIP "" = 0 ->
  getClientIp isIP req <> ""
  /\ (isIP (forwardedToken req) <> 0 -> getClientIp isIP req = forwardedToken req)
  /\ (isIP (forwardedToken req) = 0 -> isIP (socketAddress req) <> 0 ->
      getClientIp isIP req = socketAddress req).
Proof.
  intros Hempty. unfold getClientIp. cbv zeta.
  destruct (Nat.eqb_spec (isIP (forwardedToken req)) 0) as [Ht | Ht].
  - destruct (Nat.eqb_spec (isIP (socketAddress req)) 0) as [Hs | Hs]; simpl.
    + split; [| split; [congruence | congruence]].
      destruct (forwardedToken req); simpl; discriminate.
    + split; [congruence |]. split; [congruence | reflexivity].
  - assert (Hne : forwardedToken req <> "") by congruence.
    apply nonEmpty_true in Hne as Hn. rewrite Hn.
    split; [assumption |]. split; [reflexivity | congruence].
Qed.

Lemma client_ip_prefers_valid_addresses_witness :
  getClientIp isIPv4Only payment <> ""
  /\ (isIPv4Only (forwardedToken payment) <> 0 ->
      getClientIp isIPv4Only payment = forwardedToken payment)
  /\ (isIPv4Only (forwardedToken payment) = 0 ->
      isIPv4Only (socketAddress payment) <> 0 ->
      getClientIp isIPv4Only payment = socketAddress payment).
Proof.
  apply (client_ip_prefers_valid_addresses isIPv4Only payment). reflexivity.
Defined.

(** ** Port stripping *)

Lemma length_append (a b : string) :
  String.length (a +:+ b) = String.length a + String.length b.
Proof. induction a as [|c a IH]; simpl; [reflexivity | now rewrite IH]. Qed.

Lemma substring_all (s : string) : substring 0 (String.length s) s = s.
Proof. induction s as [|c s IH]; simpl; [reflexivity | now rewrite IH]. Qed.

Lemma substring_head (a b : string) : substring 0 (String.length a) (a +:+ b) = a.
Proof.
  induction a as [|c a IH]; simpl; [now destruct b | now rewrite IH].
Qed.

Lemma substring_tail (a b : string) :
  substring (String.length a) (String.length b) (a +:+ b) = b.
Proof. induction a as [|c a IH]; simpl; [apply substring_all | exact IH]. Qed.

Lemma prefix_char (a c : ascii) (s : string) :
  String.prefix (String a "") (String c s) = Ascii.eqb a c.
Proof.
  cbn [String.prefix]. destruct (ascii_dec a c) as [-> | Hne].
  - rewrite Ascii.eqb_refl. now destruct s.
  - symmetry. now apply Ascii.eqb_neq.
Qed.

Lemma lastIndex_digits (port : string) :
  Js.allDigits port = true -> Js.lastIndex port ":" = None.
Proof.
  induction port as [|c port IH]; intros H; [reflexivity |].
  cbn [Js.allDigits] in H. apply andb_true_iff in H as [Hc Hp].
  cbn [Js.lastIndex]. rewrite (IH Hp), prefix_char.
  destruct (Ascii.eqb_spec ":" c) as [<- | _]; [discriminate | reflexivity].
Qed.

Lemma lastIndex_port (host port : string) :
  Js.allDigits port = true ->
  Js.lastIndex (host +:+ ":" +:+ port) ":" = Some (String.length host).
Proof.
  intros H. induction host as [|c host IH].
  - simpl String.append. cbn [Js.lastIndex].
    now rewrite (lastIndex_digits _ H), prefix_char.
  - simpl String.append in *. cbn [Js.lastIndex]. now rewrite IH.
Qed.

Lemma startsWith_bracket (host rest : string) :
  Js.startsWith host "[" = false ->
  Js.startsWith (host +:+ ":" +:+ rest) "[" = false.
Proof.
  unfold Js.startsWith. destruct host as [|c host]; simpl String.append.
  - intros _. now rewrite prefix_char.
  - now rewrite !prefix_char.
Qed.

(** X17.  A token of the form host, colon, decimal digits loses the colon
    and the digits, whatever the host is (short of an opening bracket), and
    then an IPv4-mapped prefix: "203.0.113.7:54321" becomes "203.0.113.7",
    and so does a bare IPv6 address lose a last group written in digits. *)
Theorem port_is_stripped (host port : string) :
  Js.startsWith host "[" = false ->
  Js.isDigits port = true ->
  cleanToken (host +:+ ":" +:+ port) = stripMapped host.
Proof.
  intros Hb Hd.
  assert (Hall : Js.allDigits port = true) by (destruct port; [discriminate | exact Hd]).
  pose proof (startsWith_bracket host port Hb) as Hstart.
  assert (Hlast : Js.lastIndexOf (host +:+ ":" +:+ port) ":"
                  = Z.of_nat (String.length host))
    by (unfold Js.lastIndexOf; now rewrite (lastIndex_port host port Hall)).
  assert (Hlen : String.length (host +:+ ":" +:+ port)
                 = String.length host + S (String.length port))
    by (now rewrite length_append).
  assert (Hport : Js.sliceFrom (host +:+ ":" +:+ port) (Z.of_nat (String.length host) + 1)
                  = port).
  { unfold Js.sliceFrom, Js.slice, Js.clampIndex. rewrite Hlen.
    destruct (Z.ltb_spec (Z.of_nat (String.length host) + 1) 0); [lia |].
    destruct (Z.ltb_spec (Z.of_nat (String.length host + S (String.length port))) 0);
      [lia |].
    rewrite !Z.min_l by lia.
    replace (Z.to_nat (Z.of_nat (String.length host) + 1))
      with (String.length (host +:+ ":")) by (rewrite length_append; simpl; lia).
    replace (Z.to_nat _) with (String.length port) by lia.
    rewrite <- (substring_tail (host +:+ ":") port) at 3.
    now rewrite append_assoc. }
  assert (Hhost : Js.slice (host +:+ ":" +:+ port) 0 (Z.of_nat (String.length host))
                  = host).
  { unfold Js.slice, Js.clampIndex. rewrite Hlen. simpl (0 <? 0)%Z. cbv iota.
    destruct (Z.ltb_spec (Z.of_nat (String.length host)) 0); [lia |].
    rewrite Z.min_l by lia. rewrite Z.min_l by lia.
    rewrite Z.sub_0_r, Nat2Z.id. simpl Z.to_nat. apply substring_head. }
  remember (host +:+ ":" +:+ port) as token eqn:Htoken.
  unfold cleanToken, stripMapped. cbv zeta.
  rewrite Hstart. cbn [andb]. rewrite Hlast, Hport, Hd, Hhost.
  destruct (Z.eqb_spec (Z.of_nat (String.length host)) (-1)); [lia |].
  reflexivity.
Qed.

Lemma port_is_stripped_witness :
  cleanToken "203.0.113.7:54321" = "203.0.113.7"
  /\ cleanToken "2001:db8::1" = "2001:db8:".
Proof.
  split.
  - apply (port_is_stripped "203.0.113.7" "54321"); reflexivity.
  - apply (port_is_stripped "2001:db8:" "1"); reflexivity.
Defined.

(** ** Brackets, mapped addresses and the forwarding list *)

Lemma firstIndex_closing (inner rest : string) :
  allChars (fun c => negb (Ascii.eqb c "]")) inner = true ->
  Js.firstIndex (inner +:+ String "]" rest) "]" = Some (String.length inner).
Proof.
  intros H. induction inner as [|c inner IH].
  - simpl String.append. cbn [Js.firstIndex]. now rewrite prefix_char.
  - cbn [allChars] in H. apply andb_true_iff in H as [Hc Hi].
    simpl String.append. cbn [Js.firstIndex]. rewrite prefix_char, Ascii.eqb_sym.
    apply negb_true_iff in Hc. rewrite Hc, (IH Hi). reflexivity.
Qed.

Lemma firstIndex_absent (s : string) (c : ascii) :
  allChars (fun d => negb (Ascii.eqb d c)) s = true ->
  Js.firstIndex s (String c "") = None.
Proof.
  intros H. induction s as [|d s IH]; [reflexivity |].
  cbn [allChars] in H. apply andb_true_iff in H as [Hd Hs].
  cbn [Js.firstIndex]. rewrite prefix_char, Ascii.eqb_sym.
  apply negb_true_iff in Hd. now rewrite Hd, (IH Hs).
Qed.

(** X19.  A token that opens with a bracket is cut down to the text between
    the brackets, whatever follows the closing one, and that text is then
    cleaned like a bare token: a port after the bracket is dropped with the
    bracket, and the inner text loses a last group written in digits. *)
Theorem bracketed_token_is_unwrapped (inner rest : string) :
  allChars (fun c => negb (Ascii.eqb c "]")) inner = true ->
  cleanToken (String "[" (inner +:+ String "]" rest)) = cleanToken inner.
Proof.
  intros H.
  assert (Hidx : Js.indexOf (String "[" (inner +:+ String "]" rest)) "]"
                 = Z.of_nat (S (String.length inner))).
  { unfold Js.indexOf. cbn [Js.firstIndex]. rewrite prefix_char.
    now rewrite (firstIndex_closing inner rest H). }
  assert (Hinc : Js.includes (String "[" (inner +:+ String "]" rest)) "]" = true).
  { unfold Js.includes. cbn [Js.firstIndex]. rewrite prefix_char.
    now rewrite (firstIndex_closing inner rest H). }
  assert (Hcut : Js.slice (String "[" (inner +:+ String "]" rest)) 1
                   (Z.of_nat (S (String.length inner))) = inner).
  { unfold Js.slice, Js.clampIndex. cbn [String.length]. rewrite length_append.
    cbn [String.length].
    destruct (Z.ltb_spec 1 0); [lia |].
    destruct (Z.ltb_spec (Z.of_nat (S (String.length inner))) 0); [lia |].
    rewrite !Z.min_l by lia.
    replace (Z.to_nat (Z.of_nat (S (String.length inner)) - 1))
      with (String.length inner) by lia.
    change (Z.to_nat 1) with 1. cbn [substring]. apply substring_head. }
  assert (Hin : Js.includes inner "]" = false)
    by (unfold Js.includes; now rewrite (firstIndex_absent inner "]" H)).
  remember (String "[" (inner +:+ String "]" rest)) as token eqn:Htoken.
  assert (Hstart : Js.startsWith token "[" = true)
    by (subst token; unfold Js.startsWith; now rewrite prefix_char).
  unfold cleanToken. cbv zeta.
  rewrite Hstart, Hinc, Hidx, Hcut, Hin, andb_false_r. reflexivity.
Qed.

Lemma bracketed_token_is_unwrapped_witness :
  cleanToken "[2001:db8::ff]:8080" = "2001:db8::ff"
  /\ cleanToken "[::1]:8080" = ":".
Proof.
  split.
  - refine (eq_trans (bracketed_token_is_unwrapped "2001:db8::ff" ":8080" eq_refl) _).
    reflexivity.
  - refine (eq_trans (bracketed_token_is_unwrapped "::1" ":8080" eq_refl) _).
    reflexivity.
Defined.

Lemma lastIndex_absent (s : string) (c : ascii) :
  allChars (fun d => negb (Ascii.eqb d c)) s = true ->
  Js.lastIndex s (String c "") = None.
Proof.
  intros H. induction s as [|d s IH]; [reflexivity |].
  cbn [allChars] in H. apply andb_true_iff in H as [Hd Hs].
  cbn [Js.lastIndex]. rewrite (IH Hs), prefix_char, Ascii.eqb_sym.
  apply negb_true_iff in Hd. now rewrite Hd.
Qed.

(** X20.  An IPv4-mapped address is reduced to what follows the prefix:
    for every text without a colon that is not a run of digits,
    "::ffff:" followed by it is cleaned to the text itself. *)
Theorem mapped_prefix_is_dropped (v4 : string) :
  allChars (fun c => negb (Ascii.eqb c ":")) v4 = true ->
  Js.isDigits v4 = false ->
  cleanToken ("::ffff:" +:+ v4) = v4.
Proof.
  intros Hc Hd.
  assert (Hlast : Js.lastIndexOf ("::ffff:" +:+ v4) ":" = 6%Z).
  { unfold Js.lastIndexOf. simpl String.append. cbn [Js.lastIndex].
    rewrite (lastIndex_absent v4 ":" Hc), prefix_char. reflexivity. }
  assert (Hrest : Js.sliceFrom ("::ffff:" +:+ v4) 7 = v4).
  { unfold Js.sliceFrom, Js.slice, Js.clampIndex. simpl String.append.
    cbn [String.length].
    destruct (Z.ltb_spec 7 0); [lia |].
    destruct (Z.ltb_spec (Z.of_nat (S (S (S (S (S (S (S (String.length v4))))))))) 0);
      [lia |].
    rewrite !Z.min_l by lia.
    replace (Z.to_nat (_ - 7)) with (String.length v4) by lia.
    change (Z.to_nat 7) with 7. cbn [substring]. apply substring_all. }
  remember ("::ffff:" +:+ v4) as token eqn:Htoken.
  assert (Hstart : Js.startsWith token "[" = false)
    by (subst token; unfold Js.startsWith; simpl String.append; now rewrite prefix_char).
  assert (Hmapped : Js.startsWith token "::ffff:" = true).
  { subst token. unfold Js.startsWith. apply prefix_iff. now exists v4. }
  unfold cleanToken. cbv zeta.
  rewrite Hstart. cbn [andb]. rewrite Hlast. change (6 + 1)%Z with 7%Z.
  rewrite Hrest, Hd, andb_false_r, Hmapped. exact Hrest.
Qed.

Lemma mapped_prefix_is_dropped_witness :
  cleanToken "::ffff:203.0.113.7" = "203.0.113.7".
Proof.
  apply (mapped_prefix_is_dropped "203.0.113.7"); reflexivity.
Defined.

Lemma firstField_first (first rest : string) :
  allChars (fun c => negb (Ascii.eqb c ",")) first = true ->
  Js.firstField (first +:+ String "," rest) = first.
Proof.
  intros H. induction first as [|c first IH]; [reflexivity |].
  cbn [allChars] in H. apply andb_true_iff in H as [Hc Hf].
  simpl String.append. cbn [Js.firstField].
  apply negb_true_iff in Hc. now rewrite Hc, (IH Hf).
Qed.

(** X21.  Only the first entry of [X-Forwarded-For] counts: whatever
    follows the first comma, and [req.ip], play no part in the forwarding
    token, which is the first entry trimmed and cleaned. *)
Theorem first_forwarded_entry_counts (req : Request) (first rest : string) :
  headers req !! "x-forwarded-for" = Some (first +:+ String "," rest) ->
  allChars (fun c => negb (Ascii.eqb c ",")) first = true ->
  forwardedToken req = cleanToken (Js.trim first).
Proof.
  intros Hh Hf. unfold forwardedToken. cbv zeta. rewrite Hh.
  assert (Hne : Js.nonEmpty (first +:+ String "," rest) = true) by now destruct first.
  now rewrite Hne, firstField_first.
Qed.

Lemma first_forwarded_entry_counts_witness :
  forwardedToken
    (request "GET" ["api"] [("x-forwarded-for", "203.0.113.7:54321 , 10.0.0.1")] JUndefined)
  = cleanToken (Js.trim "203.0.113.7:54321 ").
Proof.
  apply (first_forwarded_entry_counts _ "203.0.113.7:54321 " " 10.0.0.1"); reflexivity.
Defined.
